(** * dp_config: retry decorator, page facade, plugin provisioner and
      launch configurator of DrissionPage_Base_Code

    A shallow embedding of [dp_config.py].  Exceptions are values; a
    computation returns either a value or the exception it raised, together
    with the state it left behind.  The numbers the retry decorator
    computes with ([delay], [backoff], [jitter], the value of
    [random.random()]) are Python objects: the decorator is written over an
    interface of their operations, with exact arithmetic, rounded
    arithmetic and Python's integers and binary64 floats as instances. *)

From Stdlib Require Import ZArith QArith Qabs Qpower Lqa Lia String Ascii List SpecFloat.
From stdpp Require Import base gmap strings list.

(** ** Exceptions and results *)

(** The exception classes the module names or relies on.  [except Exception]
    catches every class but the ones that derive from [BaseException] only
    ([KeyboardInterrupt], [SystemExit]). *)
Inductive exn_class :=
  | KeyboardInterrupt
  | SystemExit
  | Exception
  | RuntimeError
  | ValueError
  | OverflowError
  | KeyError
  | EOFError
  | OSError
  | FileNotFoundError
  | BadZipFile
  | RequestException.

Record exn := mkExn { cls : exn_class; msg : string }.

Definition is_Exception (e : exn) : bool :=
  match cls e with
  | KeyboardInterrupt | SystemExit => false
  | _ => true
  end.

Definition is_RequestException (e : exn) : bool :=
  match cls e with RequestException => true | _ => false end.

Definition is_BadZipFile (e : exn) : bool :=
  match cls e with BadZipFile => true | _ => false end.

Inductive result (A : Type) :=
  | Ret (a : A)
  | Raise (e : exn).
Arguments Ret {A} a.
Arguments Raise {A} e.

Definition raised {A} (r : result A) : option exn :=
  match r with Ret _ => None | Raise e => Some e end.

#[global] Instance result_ret : MRet result := fun A a => Ret a.

#[global] Instance result_bind : MBind result := fun A B k r =>
  match r with
  | Ret a => k a
  | Raise e => Raise e
  end.

Inductive level := INFO | WARNING | ERROR.

(** ** A state and exception monad *)

Definition M (S A : Type) : Type := S -> result A * S.

#[global] Instance M_ret {S} : MRet (M S) := fun A a s => (Ret a, s).

#[global] Instance M_bind {S} : MBind (M S) := fun A B k m s =>
  match m s with
  | (Ret a, s') => k a s'
  | (Raise e, s') => (Raise e, s')
  end.

Definition raise {S A} (e : exn) : M S A := fun s => (Raise e, s).

(** A computation that does not touch the state. *)
Definition lift {S A} (r : result A) : M S A := fun s => (r, s).

(** [try: body except ...: handler]: [handler e] is [None] when no
    [except] clause matches [e], which then propagates. *)
Definition try_except {S A} (body : M S A) (handler : exn -> option (M S A)) : M S A :=
  fun s =>
    match body s with
    | (Ret a, s') => (Ret a, s')
    | (Raise e, s') =>
        match handler e with
        | Some h => h s'
        | None => (Raise e, s')
        end
    end.

(** ** The retry decorator *)

Module Retry.

(** *** Numbers *)

(** What the decorator asks of the objects passed as [delay], [backoff] and
    [jitter] and of the value of [random.random()]: the operators [*], [+],
    [-] and [**] (with an [int] of [range] as exponent), which may raise;
    the integer literal [0]; the truth test of [if jitter:]; the format
    [:.2f], of which only the exception it may raise matters here; and the
    number of seconds [time.sleep] makes of its argument, or the exception
    of that conversion. *)
Class Number (N : Type) := {
  py_mul : N -> N -> result N;
  py_add : N -> N -> result N;
  py_sub : N -> N -> result N;
  py_pow : N -> nat -> result N;
  py_zero : N;
  py_bool : N -> bool;
  py_format_2f : N -> option exn;
  py_seconds : N -> result Q
}.

(** The longest duration a C timestamp of 64 bits holds, in seconds:
    [time.sleep] raises [OverflowError] beyond it. *)
Definition sleep_max : Q := 9223372036854775807 # 1000000000.

Definition too_large : exn :=
  mkExn OverflowError "timestamp too large to convert to C _PyTime_t".

(** Arithmetic in which every operation returns the exact result rounded by
    [rnd].  Rounding to the nearest binary64 gives the arithmetic of Python
    floats within their finite range. *)
Definition rounded (rnd : Q -> Q) : Number Q := {|
  py_mul x y := Ret (rnd (x * y)%Q);
  py_add x y := Ret (rnd (x + y)%Q);
  py_sub x y := Ret (rnd (x - y)%Q);
  py_pow x k := Ret (rnd (x ^ Z.of_nat k)%Q);
  py_zero := 0%Q;
  py_bool q := negb (Qeq_bool q 0);
  py_format_2f _ := None;
  py_seconds q := if Qle_bool (Qabs q) sleep_max then Ret q else Raise too_large
|}.

(** Exact arithmetic: no rounding. *)
Definition exact : Number Q := rounded (fun q => q).

(** Python's own numbers: integers of any size and binary64 floats. *)
Inductive pynum :=
  | PyInt (z : Z)
  | PyFloat (f : spec_float).





(** The rational a float stands for; [None] for an infinity or a NaN. *)
Definition float_value (f : spec_float) : option Q :=
  match f with
  | S754_zero _ => Some 0%Q
  | S754_finite s m e => Some (inject_Z (cond_Zopp s (Zpos m)) * 2 ^ e)%Q
  | S754_infinity _ | S754_nan => None
  end.

Definition value (x : pynum) : option Q :=
  match x with
  | PyInt z => Some (inject_Z z)
  | PyFloat f => float_value f
  end.


(** *** The decorator's record of a run *)

(** What the decorator itself does to the outside world, most recent first:
    the log records it writes and its calls of [time.sleep], each with the
    exception the call raised, if any.  [Invoked] is a ghost record of each
    call of the wrapped function and of what it raised.  A log record holds
    the exception whose [str] it prints. *)
Inductive retry_msg (N : Type) :=
  | AttemptFailed (func_call_str : string) (attempt_no : nat) (e : exn)
  | WaitingToRetry (sleep_time : N)
  | RetriesExhausted (func_call_str : string) (e : exn).
Arguments AttemptFailed {N} func_call_str attempt_no e.
Arguments WaitingToRetry {N} sleep_time.
Arguments RetriesExhausted {N} func_call_str e.

Inductive hevent (N : Type) :=
  | Invoked (attempt : nat) (outcome : option exn)
  | Logged (lv : level) (m : retry_msg N)
  | Sleep (secs : N) (outcome : option exn).
Arguments Invoked {N} attempt outcome.
Arguments Logged {N} lv m.
Arguments Sleep {N} secs outcome.

(** [draws] counts the calls made to the random generator so far. *)
Record harness (N : Type) := mkHarness { draws : nat; events : list (hevent N) }.
Arguments mkHarness {N} draws events.
Arguments draws {N} h.
Arguments events {N} h.

(** The code an exception object runs for [str(e)] and for its truth value
    in [if last_exception:]. *)
Record exception_methods := mkMethods {
  str : exn -> result string;
  truth : exn -> result bool
}.

(** Exceptions that define neither [__str__] nor [__bool__] nor [__len__],
    as the built-in ones: [str] gives the message and every instance is
    true. *)
Definition plain : exception_methods :=
  {| str e := Ret (msg e); truth _ := Ret true |}.

Section Wrapper.
Context {N : Type}.
Variable num : Number N.
(** The wrapped function acts on a state [St] of its own, which the
    decorator never touches. *)
Context {St A : Type}.
Variable methods : exception_methods.
(** [random n] is the value of the [n]-th call of [random.random()]. *)
Variable random : nat -> N.
Variables (retries : Z) (delay backoff jitter : N).
(** Lines 127-130: the text built from the [repr] of every argument, or the
    exception a [repr] raised. *)
Variable func_call_str : result string.
Variable func : St -> result A * St.

Definition record (ev : hevent N) : M (harness N) unit := fun h =>
  (Ret tt, {| draws := draws h; events := ev :: events h |}).

Definition logger (lv : level) (m : retry_msg N) : M (harness N) unit :=
  record (Logged lv m).

(** [random.random()] *)
Definition random_random : M (harness N) N := fun h =>
  (Ret (random (draws h)), {| draws := S (draws h); events := events h |}).

(** [random.uniform(a, b)] is [a + (b - a) * self.random()]. *)
Definition random_uniform (a b : N) : M (harness N) N :=
  width ← lift (py_sub b a);
  u ← random_random;
  r ← lift (py_mul width u);
  lift (py_add a r).

(** [time.sleep(secs)] converts its argument, then rejects a negative
    duration. *)
Definition time_sleep (secs : N) : M (harness N) unit :=
  match py_seconds secs with
  | Raise e => record (Sleep secs (Some e));; raise e
  | Ret q =>
      if Qle_bool 0 q
      then record (Sleep secs None)
      else
        let e := mkExn ValueError "sleep length must be non-negative" in
        record (Sleep secs (Some e));; raise e
  end.

(** Lines 139-142. *)
Definition compute_sleep_time (attempt : nat) : M (harness N) N :=
  p ← lift (py_pow backoff attempt);
  sleep_time ← lift (py_mul delay p);
  if py_bool jitter then
    bound ← lift (py_mul jitter sleep_time);
    r ← random_uniform py_zero bound;
    lift (py_add sleep_time r)
  else mret sleep_time.

(** Lines 136-147, the body of [except Exception as e] but for the
    assignment to [last_exception]. *)
Definition on_exception (func_call_str : string) (attempt : nat) (e : exn)
    : M (harness N) unit :=
  if (Z.of_nat attempt <? retries - 1)%Z then
    sleep_time ← compute_sleep_time attempt;
    lift (str methods e);;
    logger WARNING (AttemptFailed func_call_str (attempt + 1) e);;
    match py_format_2f sleep_time with
    | Some err => raise err
    | None =>
        logger INFO (WaitingToRetry sleep_time);;
        time_sleep sleep_time
    end
  else
    lift (str methods e);;
    logger ERROR (RetriesExhausted func_call_str e).

(** Lines 148-151, after the loop: the last exception caught is raised
    again if it is true, a [RuntimeError] otherwise. *)
Definition exhausted (func_call_str : string) (last_exception : option exn) : result A :=
  let nothing_caught :=
    mkExn RuntimeError ("函数 " ++ func_call_str ++ " 重试耗尽，但未捕获到异常") in
  match last_exception with
  | Some e =>
      b ← truth methods e;
      if b : bool then Raise e else Raise nothing_caught
  | None => Raise nothing_caught
  end.

(** The body of [for attempt in range(retries)] over the attempts still to
    run, followed by the code after the loop. *)
Fixpoint attempts (func_call_str : string) (todo : list nat)
    (last_exception : option exn) (s : St) (h : harness N)
    : result A * (St * harness N) :=
  match todo with
  | [] => (exhausted func_call_str last_exception, (s, h))
  | attempt :: rest =>
      let '(r, s1) := func s in
      let h1 := {| draws := draws h;
                   events := Invoked attempt (raised r) :: events h |} in
      match r with
      | Ret v => (Ret v, (s1, h1))
      | Raise e =>
          if is_Exception e then
            match on_exception func_call_str attempt e h1 with
            | (Ret _, h2) => attempts func_call_str rest (Some e) s1 h2
            | (Raise err, h2) => (Raise err, (s1, h2))
            end
          else (Raise e, (s1, h1))
      end
  end.

Definition wrapper (s : St) (h : harness N) : result A * (St * harness N) :=
  match func_call_str with
  | Raise e => (Raise e, (s, h))
  | Ret func_call_str => attempts func_call_str (seq 0 (Z.to_nat retries)) None s h
  end.

(** What lines 139-142 compute when [random()] returns [u]. *)
Definition uniform (a b u : N) : result N :=
  width ← py_sub b a; r ← py_mul width u; py_add a r.

Definition sleep_time (attempt : nat) (u : N) : result N :=
  p ← py_pow backoff attempt;
  sleep_time ← py_mul delay p;
  if py_bool jitter then
    bound ← py_mul jitter sleep_time;
    r ← uniform py_zero bound u;
    py_add sleep_time r
  else Ret sleep_time.
End Wrapper.

(** The delay of the specification's component design:
    [delay * backoff^attempt + uniform(0, jitter*delay)]. *)
Definition spec_sleep_time {N} (num : Number N) (delay backoff jitter : N)
    (attempt : nat) (u : N) : result N :=
  p ← py_pow backoff attempt;
  base ← py_mul delay p;
  bound ← py_mul jitter delay;
  r ← uniform num py_zero bound u;
  py_add base r.

(** Observations on the record of a run, in the order things happened:
    what the calls of the wrapped function raised, and the arguments of the
    calls of [time.sleep], of all of them and of those that returned. *)
Definition outcomes_of {N} (evs : list (hevent N)) : list (option exn) :=
  omap (fun ev => match ev with Invoked _ o => Some o | _ => None end) (rev evs).

Definition sleep_calls_of {N} (evs : list (hevent N)) : list N :=
  omap (fun ev => match ev with Sleep x _ => Some x | _ => None end) (rev evs).

Definition sleeps_of {N} (evs : list (hevent N)) : list N :=
  omap (fun ev => match ev with Sleep x None => Some x | _ => None end) (rev evs).

(** A duration [time.sleep] accepts. *)
Definition sleepable {N} (num : Number N) (x : N) : Prop :=
  py_format_2f x = None /\ exists q, py_seconds x = Ret q /\ (0 <= q)%Q.

(** An operation that raises whenever it is called, and a fresh record. *)
Definition always_fails : unit -> result unit * unit :=
  fun s => (Raise (mkExn Exception "boom"), s).

Definition fresh {N} : harness N := {| draws := 0; events := [] |}.

(** An operation that fails when first called and afterwards returns the
    number of calls made before, which is its state. *)
Definition flaky : nat -> result nat * nat := fun calls =>
  match calls with
  | O => (Raise (mkExn Exception "not yet"), 1%nat)
  | S _ => (Ret calls, S calls)
  end.

(** An operation that the user interrupts whenever it is called. *)
Definition interrupts : unit -> result unit * unit :=
  fun s => (Raise (mkExn KeyboardInterrupt ""), s).

(** Exceptions of a class that defines [__len__] as the length of the
    message, so that an instance with an empty message is false; and an
    operation that raises such an instance whenever it is called. *)
Definition sized : exception_methods :=
  {| str e := Ret (msg e); truth e := Ret (negb (String.eqb (msg e) "")) |}.

Definition fails_silently : unit -> result unit * unit :=
  fun s => (Raise (mkExn Exception ""), s).



End Retry.

(** ** The page facade [GuaPage] *)

Module Facade.

(** Handles of page elements, as the driver hands them out. *)
Definition element := nat.

(** The calls a facade method makes on the driver. *)
Inductive driver_call :=
  | Ele (selector : string) (timeout : Z)
  | Click (ele : element)
  | Clear (ele : element)
  | Input (ele : element) (text : string)
  | ActionsClick (ele : element)
  | ActionsInput (text : string).

Inductive facade_msg :=
  | Clicked (selector : string)
  | Typed (selector : string)
  | ActionsTyped (selector : string)
  | ActionsClicked (selector : string).

(** The history of a page, most recent first. *)
Inductive pevent :=
  | Called (c : driver_call) (outcome : option exn)
  | Info (m : facade_msg).

Definition page := list pevent.

(** The automation driver is an outside collaborator: what a call returns
    or raises is a function of the call and of the page's history. *)
Record driver := mkDriver {
  lookup_ele : string -> Z -> page -> result element;
  perform : driver_call -> page -> option exn
}.

Section Methods.
Variable drv : driver.

(** [self.ele(selector, timeout=timeout)] *)
Definition ele (selector : string) (timeout : Z) : M page element := fun p =>
  let r := lookup_ele drv selector timeout p in
  (r, Called (Ele selector timeout) (raised r) :: p).

(** [ele.click()], [ele.clear()], [ele.input(text)],
    [self.actions.click(ele)], [self.actions.input(text)] *)
Definition act (c : driver_call) : M page unit := fun p =>
  match perform drv c p with
  | None => (Ret tt, Called c None :: p)
  | Some e => (Raise e, Called c (Some e) :: p)
  end.

Definition logger_info (m : facade_msg) : M page unit := fun p =>
  (Ret tt, Info m :: p).

(** The undecorated method bodies. *)
Definition click_body (selector : string) (element : option element)
    (timeout : Z) : M page bool :=
  match element with
  | None =>
      ele ← ele selector timeout;
      act (Click ele);;
      logger_info (Clicked selector);;
      mret true
  | Some element =>
      let ele := element in
      act (Click ele);;
      logger_info (Clicked selector);;
      mret true
  end.

Definition input_body (selector text : string) (element : option element)
    (timeout : Z) : M page bool :=
  match element with
  | None =>
      ele ← ele selector timeout;
      act (Clear ele);;
      act (Input ele text);;
      logger_info (Typed selector);;
      mret true
  | Some element =>
      let ele := element in
      act (Clear ele);;
      act (Input ele text);;
      logger_info (Typed selector);;
      mret true
  end.

Definition actions_input_body (selector text : string)
    (element : option element) (timeout : Z) : M page bool :=
  match element with
  | None =>
      ele ← ele selector timeout;
      act (ActionsClick ele);;
      act (ActionsInput text);;
      logger_info (ActionsTyped selector);;
      mret true
  | Some element =>
      let ele := element in
      act (ActionsClick ele);;
      act (ActionsInput text);;
      logger_info (ActionsTyped selector);;
      mret true
  end.

Definition actions_click_body (selector : string) (element : option element)
    (timeout : Z) : M page bool :=
  match element with
  | None =>
      ele ← ele selector timeout;
      act (ActionsClick ele);;
      logger_info (ActionsClicked selector);;
      mret true
  | Some element =>
      let ele := element in
      act (ActionsClick ele);;
      logger_info (ActionsClicked selector);;
      mret true
  end.

(** The decorated methods.  [signature] is the text the decorator makes of
    the [repr] of the arguments, the page object and the element handle
    among them, or the exception a [repr] raised.  The decorator's
    [backoff] and [jitter] keep their defaults, 1 and 0.1; durations are
    computed exactly, and the driver's exceptions are plain ones. *)
Variable random : nat -> Q.
Variable signature : result string.

Definition func_call_str (name : string) : result string :=
  signature ← signature; Ret (name ++ "(" ++ signature ++ ")")%string.

Definition click_with_retry (selector : string) (element : option element)
    (timeout : Z) : M (page * Retry.harness Q) bool := fun st =>
  Retry.wrapper Retry.exact Retry.plain random 3 3%Q 1%Q (1 # 10)%Q
    (func_call_str "click_with_retry")
    (click_body selector element timeout) st.1 st.2.

Definition input_with_retry (selector text : string)
    (element : option element) (timeout : Z) : M (page * Retry.harness Q) bool :=
  fun st =>
  Retry.wrapper Retry.exact Retry.plain random 3 3%Q 1%Q (1 # 10)%Q
    (func_call_str "input_with_retry")
    (input_body selector text element timeout) st.1 st.2.

Definition actions_input_with_retry (selector text : string)
    (element : option element) (timeout : Z) : M (page * Retry.harness Q) bool :=
  fun st =>
  Retry.wrapper Retry.exact Retry.plain random 5 3%Q 1%Q (1 # 10)%Q
    (func_call_str "actions_input_with_retry")
    (actions_input_body selector text element timeout) st.1 st.2.

Definition actions_click_with_retry (selector : string)
    (element : option element) (timeout : Z) : M (page * Retry.harness Q) bool :=
  fun st =>
  Retry.wrapper Retry.exact Retry.plain random 5 3%Q 1%Q (1 # 10)%Q
    (func_call_str "actions_click_with_retry")
    (actions_click_body selector element timeout) st.1 st.2.

(** The four interaction methods under one name. *)
Inductive interaction :=
  | click (selector : string) (element : option element) (timeout : Z)
  | input (selector text : string) (element : option element) (timeout : Z)
  | actions_input (selector text : string) (element : option element) (timeout : Z)
  | actions_click (selector : string) (element : option element) (timeout : Z).

Definition run (i : interaction) : M (page * Retry.harness Q) bool :=
  match i with
  | click sel el t => click_with_retry sel el t
  | input sel txt el t => input_with_retry sel txt el t
  | actions_input sel txt el t => actions_input_with_retry sel txt el t
  | actions_click sel el t => actions_click_with_retry sel el t
  end.
End Methods.

(** The method body and the method name the decorator is given. *)
Definition body_of (drv : driver) (i : interaction) : M page bool :=
  match i with
  | click sel el t => click_body drv sel el t
  | input sel txt el t => input_body drv sel txt el t
  | actions_input sel txt el t => actions_input_body drv sel txt el t
  | actions_click sel el t => actions_click_body drv sel el t
  end.

Definition name_of (i : interaction) : string :=
  match i with
  | click _ _ _ => "click_with_retry"
  | input _ _ _ _ => "input_with_retry"
  | actions_input _ _ _ _ => "actions_input_with_retry"
  | actions_click _ _ _ => "actions_click_with_retry"
  end.


Definition retries_of (i : interaction) : nat :=
  match i with
  | click _ _ _ | input _ _ _ _ => 3
  | actions_input _ _ _ _ | actions_click _ _ _ => 5
  end.






(** A driver that finds element 7 for every selector and whose first call
    of all fails. *)
Definition slow_start : driver :=
  {| lookup_ele := fun _ _ _ => Ret 7%nat;
     perform := fun _ p =>
       match p with
       | [] => Some (mkExn Exception "page not ready")
       | _ => None
       end |}.

End Facade.

(** ** The plugin provisioner and the launch configurator *)

Module Config.

(** [PLUGIN_URLS] *)
Definition PLUGIN_URLS : gmap string string := list_to_map [
  ("cloudflare_ua_patch",
   "https://github.com/gua12345/DrissionPage_Base_Code/releases/download/v1/cloudflare_ua_patch.zip");
  ("my-fingerprint-chrome",
   "https://github.com/gua12345/DrissionPage_Base_Code/releases/download/v1/my-fingerprint-chrome-v2.5.1.zip");
  ("turnstilePatch",
   "https://github.com/gua12345/DrissionPage_Base_Code/releases/download/v1/turnstilePatch.zip")
]%string.

(** *** The outside world *)

Inductive fsnode :=
  | Dir
  | File (content : string).

(** The calls [set_driver] makes on its [ChromiumOptions] object. *)
Inductive pref_value :=
  | PStr (s : string)
  | PBool (b : bool).

Inductive option_call :=
  | set_paths (browser_path : string)
  | set_argument (arg : string)
  | set_pref (arg : string) (value : pref_value)
  | set_proxy (proxy : string)
  | headless (on_off : bool)
  | set_user_agent (user_agent : string)
  | new_env
  | add_extension (path : string).

(** A [ChromiumOptions] object is the list of calls made on it, oldest
    first. *)
Definition ChromiumOptions := list option_call.

Inductive log_msg :=
  | PluginPresent (plugin_name : string)
  | PluginMissing (plugin_name : string)
  | NoDownloadUrl (plugin_name : string)
  | UserDeclined (plugin_name : string)
  | DownloadStarts (plugin_name url : string)
  | DownloadDone (plugin_name : string)
  | PluginInstalled (plugin_name : string)
  | FolderNotFound (plugin_name : string)
  | DownloadFailed (plugin_name : string) (e : exn)
  | UnzipFailed (plugin_name : string) (e : exn)
  | InstallFailed (plugin_name : string) (e : exn)
  | PluginSkipped (plugin_name : string).

(** What the module does to the outside world, most recent first. *)
Inductive event :=
  | Logged (lv : level) (m : log_msg)
  | Prompted (plugin_name : string)
  | Printed
  | HttpGet (url : string)
  | Launched (co : ChromiumOptions).

(** [fs] maps the absolute paths that exist to what is there, but for the
    content of the log file, which [logfile_log] below reads off the trace.
    [stdin] holds what the calls of [input()] still to come do: return a
    line or raise an exception, a [KeyboardInterrupt] for one. *)
Record world := mkWorld {
  fs : gmap string fsnode;
  stdin : list (result string);
  trace : list event
}.

(** An HTTP response: what [raise_for_status()] raises, the chunks
    [iter_content] yields, and the error that ends the stream early. *)
Record response := mkResponse {
  status_error : option exn;
  chunks : list string;
  stream_error : option exn
}.

(** The platform and the outside collaborators.  [getcwd] is the working
    directory, or the exception [os.getcwd()] raises when that directory is
    gone.  [resolve] gives the absolute path the operating system resolves
    a path name to, from the working directory.  [stdout_error] is the
    exception [print] raises, if any, after the events so far.
    [zip_entries] reads an archive: [None] when the content is no zip file,
    otherwise the relative paths unpacking creates, parents first.
    [IsUserAnAdmin] and [geteuid] are the two privilege probes ([geteuid]
    is [None] where [os] lacks the function). *)
Record platform := mkPlatform {
  os_name : string;
  getcwd : result string;
  os_path_join : string -> string -> string;
  resolve : string -> string;
  stdout_error : list event -> option exn;
  IsUserAnAdmin : Z;
  geteuid : option Z;
  requests_get : string -> list event -> result response;
  zip_entries : string -> option (list (string * fsnode));
  launch : ChromiumOptions -> list event -> option exn
}.

(** *** Strings *)

(** Strings hold the UTF-8 encoding of Python's text.  [str.strip()]
    removes the white space of Unicode from both ends: the ASCII characters
    9 to 13 and 28 to 32, and U+0085, U+00A0, U+1680, U+2000 to U+200A,
    U+2028, U+2029, U+202F, U+205F and U+3000, which take two or three
    bytes. *)
Definition is_space (c : ascii) : bool :=
  let n := nat_of_ascii c in
  ((9 <=? n) && (n <=? 13) || (28 <=? n) && (n <=? 32))%nat.

Definition is_space2 (a b : ascii) : bool :=
  let a := nat_of_ascii a in
  let b := nat_of_ascii b in
  ((a =? 194) && ((b =? 133) || (b =? 160)))%nat.

Definition is_space3 (a b c : ascii) : bool :=
  let a := nat_of_ascii a in
  let b := nat_of_ascii b in
  let c := nat_of_ascii c in
  ((a =? 225) && (b =? 154) && (c =? 128)
   || (a =? 226) && (b =? 128) &&
      ((128 <=? c) && (c <=? 138) || (c =? 168) || (c =? 169) || (c =? 175))
   || (a =? 226) && (b =? 129) && (c =? 159)
   || (a =? 227) && (b =? 128) && (c =? 128))%nat.

(** White space removed from the start of a string; with [backwards], of a
    string whose bytes are in reverse order. *)
Fixpoint lstrip (backwards : bool) (s : string) : string :=
  match s with
  | String a s1 =>
      if is_space a then lstrip backwards s1 else
      match s1 with
      | String b s2 =>
          if (if backwards then is_space2 b a else is_space2 a b)
          then lstrip backwards s2 else
          match s2 with
          | String c s3 =>
              if (if backwards then is_space3 c b a else is_space3 a b c)
              then lstrip backwards s3 else s
          | EmptyString => s
          end
      | EmptyString => s
      end
  | EmptyString => s
  end.

Definition strip (s : string) : string :=
  String.rev (lstrip true (String.rev (lstrip false s))).

(** [str.lower()] on the letters of ASCII.  Python also maps letters
    outside ASCII, none of them to a letter of the answers tested for
    below. *)
Definition lower_ascii (c : ascii) : ascii :=
  let n := nat_of_ascii c in
  if ((65 <=? n) && (n <=? 90))%nat then ascii_of_nat (n + 32) else c.

Fixpoint lower (s : string) : string :=
  match s with
  | String c s' => String (lower_ascii c) (lower s')
  | EmptyString => EmptyString
  end.

(** [x in [...]] on strings. *)
Definition str_in (x : string) (l : list string) : bool :=
  existsb (String.eqb x) l.

(** The two tests of the prompt loop on a line typed by the user. *)
Definition says_yes (line : string) : bool :=
  str_in (lower (strip line)) ["y"; "yes"; "是"]%string.

Definition says_no (line : string) : bool :=
  str_in (lower (strip line)) ["n"; "no"; "否"]%string.

(** Truth value of [None] or a string. *)
Definition truthy (s : option string) : bool :=
  match s with
  | None => false
  | Some s => negb (String.eqb s "")
  end.

Section Program.
Variable pf : platform.

Definition record (ev : event) : M world unit := fun w =>
  (Ret tt, {| fs := fs w; stdin := stdin w; trace := ev :: trace w |}).

(** A log record goes to the sinks of [logger]: the console and, by line
    14, the file [logfile.log]. *)
Definition logger (lv : level) (m : log_msg) : M world unit :=
  record (Logged lv m).

(** [print(...)] *)
Definition print_ : M world unit := fun w =>
  match stdout_error pf (trace w) with
  | Some e => (Raise e, w)
  | None => record Printed w
  end.

Definition set_fs (f : gmap string fsnode -> gmap string fsnode) : M world unit :=
  fun w => (Ret tt, {| fs := f (fs w); stdin := stdin w; trace := trace w |}).

(** [os.path.exists(path)] *)
Definition os_path_exists (path : string) : M world bool := fun w =>
  (Ret (bool_decide (is_Some (fs w !! resolve pf path))), w).

(** [requests.get(url, stream=True)] *)
Definition get (url : string) : M world response := fun w =>
  (requests_get pf url (trace w), {| fs := fs w; stdin := stdin w; trace := HttpGet url :: trace w |}).

Definition raise_for_status (r : response) : M world unit :=
  match status_error r with
  | Some e => raise e
  | None => mret tt
  end.

(** [open(path, 'wb')] creates the file, or empties the one that is
    there; it fails on a directory. *)
Definition open_wb (path : string) : M world unit := fun w =>
  match fs w !! resolve pf path with
  | Some Dir => (Raise (mkExn OSError "Is a directory"), w)
  | _ => set_fs <[resolve pf path := File ""]> w
  end.

(** [f.write(chunk)] *)
Definition write (path chunk : string) : M world unit :=
  set_fs (alter (fun n => match n with
                          | File c => File (c ++ chunk)
                          | Dir => Dir
                          end) (resolve pf path)).

(** [for chunk in response.iter_content(...): f.write(chunk)] *)
Fixpoint write_chunks (path : string) (cs : list string)
    (stream_error : option exn) : M world unit :=
  match cs with
  | [] => match stream_error with
          | Some e => raise e
          | None => mret tt
          end
  | chunk :: rest => write path chunk;; write_chunks path rest stream_error
  end.

(** Unpacking one archive member: a directory is made unless a file is in
    its place, a file is written unless a directory is in its place. *)
Definition extract (member : string * fsnode) : M world unit := fun w =>
  let target := resolve pf member.1 in
  match member.2, fs w !! target with
  | Dir, Some (File _) => (Raise (mkExn OSError "File exists"), w)
  | Dir, _ => set_fs <[target := Dir]> w
  | File _, Some Dir => (Raise (mkExn OSError "Is a directory"), w)
  | File c, _ => set_fs <[target := File c]> w
  end.

Fixpoint extract_members (members : list (string * fsnode)) : M world unit :=
  match members with
  | [] => mret tt
  | m :: rest => extract m;; extract_members rest
  end.

(** [with zipfile.ZipFile(path, 'r') as zip_ref: zip_ref.extractall('.')] *)
Definition extractall (path : string) : M world unit := fun w =>
  match fs w !! resolve pf path with
  | Some (File content) =>
      match zip_entries pf content with
      | Some members => extract_members members w
      | None => (Raise (mkExn BadZipFile "File is not a zip file"), w)
      end
  | Some Dir => (Raise (mkExn OSError "Is a directory"), w)
  | None => (Raise (mkExn FileNotFoundError "No such file or directory"), w)
  end.

(** [os.remove(path)] *)
Definition os_remove (path : string) : M world unit := fun w =>
  match fs w !! resolve pf path with
  | Some (File _) => set_fs (delete (resolve pf path)) w
  | Some Dir => (Raise (mkExn OSError "Is a directory"), w)
  | None => (Raise (mkExn FileNotFoundError "No such file or directory"), w)
  end.

(** [PLUGIN_URLS[plugin_name]] *)
Definition url_of (plugin_name : string) : M world string :=
  match PLUGIN_URLS !! plugin_name with
  | Some url => mret url
  | None => raise (mkExn KeyError plugin_name)
  end.

(** *** [download_plugin] *)

Definition download_plugin (plugin_name : string) : M world bool :=
  try_except
    (url ← url_of plugin_name;
     logger INFO (DownloadStarts plugin_name url);;
     response ← get url;
     raise_for_status response;;
     let zip_filename := (plugin_name ++ ".zip")%string in
     open_wb zip_filename;;
     write_chunks zip_filename (chunks response) (stream_error response);;
     logger INFO (DownloadDone plugin_name);;
     extractall zip_filename;;
     os_remove zip_filename;;
     cwd ← lift (getcwd pf);
     let plugin_path := os_path_join pf cwd plugin_name in
     found ← os_path_exists plugin_path;
     if found : bool
     then logger INFO (PluginInstalled plugin_name);; mret true
     else logger ERROR (FolderNotFound plugin_name);; mret false)
    (fun e =>
       if is_RequestException e
       then Some (logger ERROR (DownloadFailed plugin_name e);; mret false)
       else if is_BadZipFile e
       then Some (logger ERROR (UnzipFailed plugin_name e);; mret false)
       else if is_Exception e
       then Some (logger ERROR (InstallFailed plugin_name e);; mret false)
       else None).

(** *** [check_and_download_plugin] *)

(** The [while True] loop, over what standard input still holds;
    [input()] raises [EOFError] once that is used up. *)
Fixpoint ask (plugin_name : string) (lines : list (result string)) : M world bool :=
  match lines with
  | [] => record (Prompted plugin_name);; raise (mkExn EOFError "EOF when reading a line")
  | item :: rest =>
      record (Prompted plugin_name);;
      (fun w => (Ret tt, {| fs := fs w; stdin := rest; trace := trace w |}));;
      line ← lift item;
      let user_input := lower (strip line) in
      if str_in user_input ["y"; "yes"; "是"]%string
      then download_plugin plugin_name
      else if str_in user_input ["n"; "no"; "否"]%string
      then logger INFO (UserDeclined plugin_name);; mret false
      else print_;; ask plugin_name rest
  end.

Definition check_and_download_plugin (plugin_name : string) : M world bool :=
  cwd ← lift (getcwd pf);
  let plugin_path := os_path_join pf cwd plugin_name in
  found ← os_path_exists plugin_path;
  if found : bool
  then logger INFO (PluginPresent plugin_name);; mret true
  else
    logger WARNING (PluginMissing plugin_name);;
    if bool_decide (PLUGIN_URLS !! plugin_name = None)
    then logger ERROR (NoDownloadUrl plugin_name);; mret false
    else fun w => ask plugin_name (stdin w) w.
End Program.

(** *** [set_driver] *)

Definition windows_paths : list string := [
  "C:\Program Files\Google\Chrome\Application\chrome.exe";
  "C:\Program Files (x86)\Google\Chrome\Application\chrome.exe";
  "C:\Program Files\Microsoft\Edge\Application\msedge.exe"
]%string.

Definition linux_paths : list string := [
  "/usr/bin/google-chrome";
  "/usr/bin/chromium";
  "/usr/bin/chromium-browser";
  "/usr/bin/microsoft-edge";
  "/snap/bin/chromium";
  "/usr/lib/chromium/chromium";
  "/usr/lib/chromium-browser/chromium-browser"
]%string.

Definition DEFAULT_USER_AGENT : string :=
  "Mozilla/5.0 (X11; Linux x86_64) AppleWebKit/537.36 (KHTML, like Gecko) Chrome/131.0.0.0 Safari/537.36".

(** The session object [GuaPage(co)] hands back. *)
Record GuaPage := mkGuaPage { options : ChromiumOptions }.

(** The error of line 294. *)
Definition no_browser : exn :=
  mkExn FileNotFoundError "未找到可用的浏览器，请手动指定browser_path参数".

Section Launch.
Variable pf : platform.

Definition is_windows : bool := String.eqb (os_name pf) "nt".

Definition default_paths : list string :=
  if is_windows then windows_paths else linux_paths.

(** [for path in default_paths: if os.path.exists(path): ...; break] *)
Fixpoint first_existing (paths : list string) : M world (option string) :=
  match paths with
  | [] => mret None
  | path :: rest =>
      found ← os_path_exists pf path;
      if found : bool then mret (Some path) else first_existing rest
  end.

(** Lines 288-294.  A path that is [None] counts as the empty string
    once the test [not browser_path] has been passed. *)
Definition find_browser (browser_path : option string) : M world string :=
  if negb (truthy browser_path) then
    found ← first_existing default_paths;
    let browser_path :=
      match found with Some path => Some path | None => browser_path end in
    if negb (truthy browser_path)
    then raise no_browser
    else mret (default ""%string browser_path)
  else mret (default ""%string browser_path).

(** Lines 299-306. *)
Definition is_admin : bool :=
  if is_windows
  then negb (IsUserAnAdmin pf =? 0)%Z
  else match geteuid pf with
       | Some uid => (uid =? 0)%Z
       | None => false
       end.

(** Lines 296-333: the calls on [co] up to [co.new_env()]. *)
Definition base_options (head_less : bool) (browser_path : string)
    (user_agent proxy : option string) : ChromiumOptions :=
  [set_paths browser_path]
  ++ (if is_admin
      then [set_argument "--no-sandbox"; set_argument "--disable-dev-shm-usage"]
           ++ (if negb is_windows
               then [set_argument "--disable-gpu";
                     set_argument "--disable-software-rasterizer"]
               else [])
      else [])
  ++ [set_pref "profile.default_content_settings.popups" (PStr "0");
      set_pref "credentials_enable_service" (PBool false);
      set_argument "--hide-crash-restore-bubble";
      set_argument "--lang=en-US";
      set_argument "--accept-languages=en-US,en"]
  ++ (match proxy with
      | Some p => if truthy proxy then [set_proxy p] else []
      | None => []
      end)
  ++ [headless head_less]
  ++ [match user_agent with
      | Some ua => if truthy user_agent
                   then set_user_agent ua
                   else set_user_agent DEFAULT_USER_AGENT
      | None => set_user_agent DEFAULT_USER_AGENT
      end]
  ++ [new_env].

(** One of the three blocks of lines 336-352. *)
Definition load_plugin (flag : bool) (plugin_name : string)
    (co : ChromiumOptions) : M world ChromiumOptions :=
  if flag then
    available ← check_and_download_plugin pf plugin_name;
    if available : bool
    then mret (co ++ [add_extension plugin_name])
    else logger WARNING (PluginSkipped plugin_name);; mret co
  else mret co.

(** Lines 355-356. *)
Definition load_gpt_rf (co : ChromiumOptions) : M world ChromiumOptions :=
  found ← os_path_exists pf "gpt_rf";
  if found : bool then mret (co ++ [add_extension "gpt_rf"]) else mret co.

(** [GuaPage(co)]: the driver starts the browser, or fails to. *)
Definition new_GuaPage (co : ChromiumOptions) : M world GuaPage := fun w =>
  let w' := {| fs := fs w; stdin := stdin w; trace := Launched co :: trace w |} in
  match launch pf co (trace w) with
  | Some e => (Raise e, w')
  | None => (Ret (mkGuaPage co), w')
  end.

Definition set_driver (head_less : bool) (browser_path user_agent proxy : option string)
    (cf_bypass random_fingerprint ua_patch : bool) : M world GuaPage :=
  browser_path ← find_browser browser_path;
  let co := base_options head_less browser_path user_agent proxy in
  co ← load_plugin cf_bypass "turnstilePatch" co;
  co ← load_plugin random_fingerprint "my-fingerprint-chrome" co;
  co ← load_plugin ua_patch "cloudflare_ua_patch" co;
  co ← load_gpt_rf co;
  driver ← new_GuaPage co;
  mret driver.
End Launch.

(** *** Observations *)

Definition plugin_names : list string :=
  ["turnstilePatch"; "my-fingerprint-chrome"; "cloudflare_ua_patch"]%string.

(** The plugin a log record is about. *)
Definition plugin_of (m : log_msg) : string :=
  match m with
  | PluginPresent n | PluginMissing n | NoDownloadUrl n | UserDeclined n
  | DownloadStarts n _ | DownloadDone n | PluginInstalled n | FolderNotFound n
  | DownloadFailed n _ | UnzipFailed n _ | InstallFailed n _ | PluginSkipped n => n
  end.

Definition about (ev : event) : option string :=
  match ev with
  | Logged _ m => Some (plugin_of m)
  | Prompted n => Some n
  | Printed | HttpGet _ | Launched _ => None
  end.

(** The events provisioning plugin [name] may cause. *)
Definition provision_event (name : string) (ev : event) : Prop :=
  match ev with
  | Logged _ (PluginSkipped _) => False
  | Logged _ m => plugin_of m = name
  | Prompted n => n = name
  | Printed => True
  | HttpGet url => PLUGIN_URLS !! name = Some url
  | Launched _ => False
  end.

(** The events of one of the three blocks of [set_driver]. *)
Definition stage_event (name : string) (ev : event) : Prop :=
  provision_event name ev \/ ev = Logged WARNING (PluginSkipped name).

(** From [w] to [w']: the trace grew by events of [allowed], and every
    directory is still there. *)
Definition step_ok (allowed : event -> Prop) (w w' : world) : Prop :=
  (exists new, trace w' = new ++ trace w /\ Forall allowed new) /\
  (forall k, fs w !! k = Some Dir -> fs w' !! k = Some Dir).

(** A computation that only makes such steps, and only raises exceptions of
    [E]. *)
Definition safe {A} (allowed : event -> Prop) (E : exn -> Prop) (m : M world A) : Prop :=
  forall w r w', m w = (r, w') ->
    step_ok allowed w w' /\ forall e, r = Raise e -> E e.

(** The records the file sink of line 14 has appended to [logfile.log],
    oldest first. *)
Definition logfile_log (w : world) : list (level * log_msg) :=
  omap (fun ev => match ev with Logged lv m => Some (lv, m) | _ => None end)
       (rev (trace w)).

(** The extensions [set_driver] can attach, in the order it attaches them. *)
Definition loadable : list string :=
  ["turnstilePatch"; "my-fingerprint-chrome"; "cloudflare_ua_patch"; "gpt_rf"]%string.

(** The record an [except] clause of [download_plugin] logs for [e]. *)
Definition failure_log (plugin_name : string) (e : exn) : log_msg :=
  if is_RequestException e then DownloadFailed plugin_name e
  else if is_BadZipFile e then UnzipFailed plugin_name e
  else InstallFailed plugin_name e.

Definition any_stage (ev : event) : Prop :=
  exists name, In name plugin_names /\ stage_event name ev.

(** The extension a block of [set_driver] adds, given the events [pre] of the
    run: none when the flag is off or the plugin was skipped. *)
Definition picked (pre : list event) (flag : bool) (name : string)
    (x : list string) : Prop :=
  x = [] /\ (flag = false \/ In (Logged WARNING (PluginSkipped name)) pre)
  \/ x = [name] /\ flag = true /\ ~ In (Logged WARNING (PluginSkipped name)) pre.

(** One of the three blocks of [set_driver] that runs to its end, from [w]
    to [w']: the flag is off, or the check of the plugin returns
    [available], followed by the warning when that is [False]. *)
Definition block_runs (pf : platform) (flag : bool) (plugin_name : string)
    (w : world) (available : bool) (w' : world) : Prop :=
  if flag then
    exists w1,
      check_and_download_plugin pf plugin_name w = (Ret available, w1) /\
      w' = if available then w1
           else {| fs := fs w1; stdin := stdin w1;
                   trace := Logged WARNING (PluginSkipped plugin_name) :: trace w1 |}
  else w' = w.

(** The extension such a block attaches. *)
Definition attached (flag available : bool) (plugin_name : string) : list string :=
  if flag && available then [plugin_name] else [].

(** The directory [gpt_rf], when it is there. *)
Definition gpt_rf (pf : platform) (w : world) : list string :=
  if bool_decide (is_Some (fs w !! resolve pf "gpt_rf")) then ["gpt_rf"%string] else [].

(** *** A Linux machine to run the module on *)

(** [posixpath.join] of two components. *)
Definition posix_join (a p : string) : string :=
  if String.prefix "/" p then p
  else if (String.eqb a "" || String.prefix "/" (String.rev a))%bool then a ++ p
  else a ++ "/" ++ p.

(** A machine with working directory [/work], an unprivileged user, and the
    given network, archive reader and driver. *)
Definition linux_box (net : string -> list event -> result response)
    (unzip : string -> option (list (string * fsnode)))
    (start : ChromiumOptions -> list event -> option exn) : platform :=
  {| os_name := "posix";
     getcwd := Ret "/work"%string;
     os_path_join := posix_join;
     resolve := posix_join "/work";
     stdout_error := fun _ => None;
     IsUserAnAdmin := 0;
     geteuid := Some 1000%Z;
     requests_get := net;
     zip_entries := unzip;
     launch := start |}.

Definition on_disk (paths : list (string * fsnode)) (lines : list string) : world :=
  {| fs := list_to_map paths; stdin := map Ret lines; trace := [] |}.

(** Three servers: one that answers with a web page instead of an archive,
    one whose connection breaks after the first chunk, one that is down. *)
Definition html_page : string -> list event -> result response := fun _ _ =>
  Ret {| status_error := None; chunks := ["<html>"; "</html>"]%string;
         stream_error := None |}.

Definition cut_off : string -> list event -> result response := fun _ _ =>
  Ret {| status_error := None; chunks := ["PK"%string];
         stream_error := Some (mkExn RequestException "Connection broken") |}.

Definition offline : string -> list event -> result response := fun _ _ =>
  Raise (mkExn RequestException "Connection refused").

Definition no_archive : string -> option (list (string * fsnode)) := fun _ => None.


Definition release : string -> list event -> result response := fun _ _ =>
  Ret {| status_error := None; chunks := ["PK"; "archive"]%string;
         stream_error := None |}.

Definition unpacks : string -> option (list (string * fsnode)) := fun _ =>
  Some [("turnstilePatch", Dir); ("turnstilePatch/manifest.json", File "{}")]%string.

Definition starts : ChromiumOptions -> list event -> option exn := fun _ _ => None.

End Config.

(** * Properties *)

Lemma bind_inv {S A B} (m : M S A) (k : A -> M S B) s r s' :
  (m ≫= k) s = (r, s') ->
  (exists a s1, m s = (Ret a, s1) /\ k a s1 = (r, s')) \/
  (exists e, m s = (Raise e, s') /\ r = Raise e).
Proof.
  unfold mbind, M_bind. destruct (m s) as [[a|e] s1]; intros H.
  - left. by exists a, s1.
  - right. injection H as <- <-. by exists e.
Qed.

Module RetryFacts.
Import Retry.

Lemma outcomes_of_app {N} (a b : list (hevent N)) :
  outcomes_of (a ++ b) = outcomes_of b ++ outcomes_of a.
Proof. unfold outcomes_of. by rewrite rev_app_distr, omap_app. Qed.

Lemma sleeps_of_app {N} (a b : list (hevent N)) :
  sleeps_of (a ++ b) = sleeps_of b ++ sleeps_of a.
Proof. unfold sleeps_of. by rewrite rev_app_distr, omap_app. Qed.

Lemma sleep_calls_of_app {N} (a b : list (hevent N)) :
  sleep_calls_of (a ++ b) = sleep_calls_of b ++ sleep_calls_of a.
Proof. unfold sleep_calls_of. by rewrite rev_app_distr, omap_app. Qed.

Ltac fin := repeat split; try reflexivity; simpl; try lia; try done.

Section Runs.
Context {N : Type} (num : Number N) {St A : Type}.
Variable methods : exception_methods.
Variable random : nat -> N.
Variables (retries : Z) (delay backoff jitter : N).
Variable func : St -> result A * St.

Local Abbreviation compute_sleep_time := (compute_sleep_time num random delay backoff jitter).
Local Abbreviation sleep_time := (sleep_time num delay backoff jitter).
Local Abbreviation on_exception := (on_exception num methods random retries delay backoff jitter).
Local Abbreviation attempts := (attempts num methods random retries delay backoff jitter func).

Lemma sleep_time_no_jitter k u u' :
  py_bool jitter = false -> sleep_time k u = sleep_time k u'.
Proof. intros Hj. unfold Retry.sleep_time. by rewrite Hj. Qed.

Lemma compute_sleep_time_run k h :
  exists h',
    compute_sleep_time k h = (sleep_time k (random (draws h)), h') /\
    events h' = events h /\
    (forall x, sleep_time k (random (draws h)) = Ret x ->
       draws h' = (if py_bool jitter then S (draws h) else draws h)).
Proof.
  unfold Retry.compute_sleep_time, Retry.sleep_time, random_uniform, uniform,
    random_random, lift, mbind, M_bind, result_bind, mret, M_ret.
  destruct (py_pow backoff k) as [p|e]; [|by eexists].
  destruct (py_mul delay p) as [s|e]; [|by eexists].
  destruct (py_bool jitter); [|by eexists].
  destruct (py_mul jitter s) as [b|e]; [|by eexists].
  destruct (py_sub b py_zero) as [w|e]; [|by eexists].
  destruct (py_mul w (random (draws h))) as [m|e]; [|by eexists].
  destruct (py_add py_zero m) as [r0|e]; by eexists.
Qed.

Lemma time_sleep_run x h :
  exists o,
    time_sleep num x h =
      (match o with None => Ret tt | Some e => Raise e end,
       {| draws := draws h; events := Sleep x o :: events h |}) /\
    (o = None <-> exists q, py_seconds x = Ret q /\ (0 <= q)%Q).
Proof.
  unfold time_sleep. destruct (py_seconds x) as [q|e].
  - destruct (Qle_bool 0 q) eqn:Hq.
    + exists None. split; [done|]. split; [|done]. intros _. exists q.
      split; [done|]. by apply Qle_bool_iff.
    + eexists (Some _). split; [done|]. split; [done|].
      intros (q' & [= <-] & Hq'). apply Qle_bool_iff in Hq'. congruence.
  - exists (Some e). split; [done|]. split; [done|]. by intros (q & ? & _).
Qed.

(** What the [except] block adds to the record. *)
Lemma on_exception_run fcs k e h r h' :
  on_exception fcs k e h = (r, h') ->
  exists new,
    events h' = new ++ events h /\
    outcomes_of new = [] /\
    match r with
    | Ret _ =>
        if (Z.of_nat k <? retries - 1)%Z then
          exists x, sleep_time k (random (draws h)) = Ret x /\ sleepable num x /\
                    sleep_calls_of new = [x] /\ sleeps_of new = [x] /\
                    draws h' = (if py_bool jitter then S (draws h) else draws h)
        else sleep_calls_of new = [] /\ sleeps_of new = [] /\ draws h' = draws h
    | Raise err =>
        sleeps_of new = [] /\ (length (sleep_calls_of new) <= 1)%nat /\
        (sleep_calls_of new <> [] -> (Z.of_nat k < retries - 1)%Z)
    end.
Proof.
  unfold Retry.on_exception. destruct (Z.of_nat k <? retries - 1)%Z eqn:Hk.
  - apply Z.ltb_lt in Hk. intros Hrun.
    destruct (compute_sleep_time_run k h) as (h1 & Hc & Hev & Hdr).
    apply bind_inv in Hrun as [(x & h1' & Hc' & Hrun)|(err & Hc' & ->)];
      rewrite Hc in Hc'; injection Hc' as Hx <-; cycle 1.
    { exists []. simpl. rewrite Hev. fin. }
    specialize (Hdr _ Hx).
    apply bind_inv in Hrun as [(t & h2 & Hs & Hrun)|(err & Hs & ->)];
      unfold lift in Hs; injection Hs as Hs <-; cycle 1.
    { exists []. simpl. rewrite Hev. fin. }
    apply bind_inv in Hrun as [([] & h3 & Hl & Hrun)|(err & Hl & ->)];
      [|done]. injection Hl as <-.
    destruct (py_format_2f x) as [err|] eqn:Hfmt.
    { injection Hrun as <- <-. eexists [_]. simpl. rewrite Hev.
      fin. }
    apply bind_inv in Hrun as [([] & h4 & Hl & Hrun)|(err & Hl & ->)];
      [|done]. injection Hl as <-.
    unfold Retry.logger, Retry.record in Hrun.
    match type of Hrun with time_sleep _ _ ?hh = _ =>
      destruct (time_sleep_run x hh) as (o & Hts & Ho) end.
    rewrite Hts in Hrun. cbn [draws events] in Hrun.
    injection Hrun as <- <-. eexists [_; _; _]. simpl. rewrite Hev.
    split; [done|]. split; [done|]. destruct o as [err|].
    + fin.
    + exists x. split; [done|]. split; [|by repeat split].
      split; [done|]. by apply Ho.
  - apply Z.ltb_ge in Hk. intros Hrun.
    apply bind_inv in Hrun as [(t & h2 & Hs & Hrun)|(err & Hs & ->)];
      unfold lift in Hs; injection Hs as Hs <-.
    + injection Hrun as <- <-. eexists [_]. by repeat split.
    + exists []. fin.
Qed.

(** The [except] block returns whenever its computations do. *)
Lemma on_exception_ok fcs k e h x t :
  (Z.of_nat k < retries - 1)%Z ->
  sleep_time k (random (draws h)) = Ret x ->
  sleepable num x ->
  str methods e = Ret t ->
  exists h', on_exception fcs k e h = (Ret tt, h').
Proof.
  intros Hk Hx (Hfmt & q & Hq & Hq0) Hs. unfold Retry.on_exception.
  apply Z.ltb_lt in Hk. rewrite Hk.
  destruct (compute_sleep_time_run k h) as (h1 & Hc & _).
  unfold mbind, M_bind. rewrite Hc, Hx. unfold lift. rewrite Hs.
  unfold Retry.logger, Retry.record. rewrite Hfmt. unfold time_sleep.
  rewrite Hq. apply Qle_bool_iff in Hq0. rewrite Hq0. by eexists.
Qed.

Lemma on_exception_last fcs k e h t :
  (retries - 1 <= Z.of_nat k)%Z ->
  str methods e = Ret t ->
  on_exception fcs k e h =
  (Ret tt, {| draws := draws h;
              events := Logged ERROR (RetriesExhausted fcs e) :: events h |}).
Proof.
  intros Hk Hs. unfold Retry.on_exception.
  apply Z.ltb_ge in Hk. rewrite Hk.
  unfold mbind, M_bind, lift. by rewrite Hs.
Qed.

(** *** The loop *)

Section Loop.
Variable fcs : string.

(** Induction over the attempts of a run: the loop is over, the call
    returns, the call raises an exception that is not caught, the [except]
    block raises, or the run goes on with the next attempt. *)
Lemma attempts_ind
    (P : nat -> nat -> option exn -> St -> harness N ->
         result A -> St -> harness N -> Prop) :
  (forall k last s h, P 0%nat k last s h (exhausted methods fcs last) s h) ->
  (forall n k last s h v s1,
     func s = (Ret v, s1) ->
     P (S n) k last s h (Ret v) s1
       {| draws := draws h; events := Invoked k None :: events h |}) ->
  (forall n k last s h e s1,
     func s = (Raise e, s1) -> is_Exception e = false ->
     P (S n) k last s h (Raise e) s1
       {| draws := draws h; events := Invoked k (Some e) :: events h |}) ->
  (forall n k last s h e s1 err h2,
     func s = (Raise e, s1) -> is_Exception e = true ->
     on_exception fcs k e
       {| draws := draws h; events := Invoked k (Some e) :: events h |}
       = (Raise err, h2) ->
     P (S n) k last s h (Raise err) s1 h2) ->
  (forall n k last s h e s1 h2 r s' h',
     func s = (Raise e, s1) -> is_Exception e = true ->
     on_exception fcs k e
       {| draws := draws h; events := Invoked k (Some e) :: events h |}
       = (Ret tt, h2) ->
     attempts fcs (seq (S k) n) (Some e) s1 h2 = (r, (s', h')) ->
     P n (S k) (Some e) s1 h2 r s' h' ->
     P (S n) k last s h r s' h') ->
  forall n k last s h r s' h',
    attempts fcs (seq k n) last s h = (r, (s', h')) -> P n k last s h r s' h'.
Proof.
  intros Hend Hret Hbase Hexc Hnext.
  induction n as [|n IH]; intros k last s h r s' h' Hrun.
  - injection Hrun as <- <- <-. apply Hend.
  - cbn [seq Retry.attempts] in Hrun. destruct (func s) as [[v|e] s1] eqn:Hf;
      cbn [raised] in Hrun.
    { injection Hrun as <- <- <-. by apply Hret. }
    destruct (is_Exception e) eqn:He; cycle 1.
    { injection Hrun as <- <- <-. by apply Hbase. }
    destruct (on_exception fcs k e _) as [[[]|err] h2] eqn:Hon.
    + eapply Hnext; eauto.
    + injection Hrun as <- <- <-. by eapply Hexc.
Qed.

(** The calls of a run: a series of calls that raised an [Exception],
    then one last call.  A value returned is the last call's, and so is an
    exception that [except Exception] does not catch. *)
Lemma attempts_calls n k last s h r s' h' :
  attempts fcs (seq k n) last s h = (r, (s', h')) ->
  exists new,
    events h' = new ++ events h /\
    (n = 0%nat /\ new = [] /\ r = exhausted methods fcs last /\ s' = s
     \/ exists es o,
          outcomes_of new = map Some es ++ [o] /\
          Forall (fun e => is_Exception e = true) es /\
          (length es < n)%nat /\
          (forall v, r = Ret v -> o = None /\ exists s0, func s0 = (Ret v, s')) /\
          (o = None -> exists v, r = Ret v) /\
          (forall e, o = Some e -> is_Exception e = false -> r = Raise e)).
Proof.
  revert n k last s h r s' h'. apply attempts_ind.
  - intros k last s h. exists []. split; [done|]. by left.
  - intros n k last s h v s1 Hf. eexists [_]. split; [done|]. right.
    exists [], None. split; [done|]. split; [constructor|].
    split; [simpl; lia|]. split; [|split; [by exists v | done]].
    intros v' [= <-]. split; [done | by exists s].
  - intros n k last s h e s1 Hf He. eexists [_]. split; [done|]. right.
    exists [], (Some e). split; [done|]. split; [constructor|].
    split; [simpl; lia|]. split; [done|]. split; [done|].
    by intros e' [= <-].
  - intros n k last s h e s1 err h2 Hf He Hon.
    apply on_exception_run in Hon as (new & Hnew & Hout & _).
    cbn [events] in Hnew. eexists (new ++ [_]). split.
    { by rewrite <- app_assoc. }
    right. exists [], (Some e). rewrite outcomes_of_app, Hout.
    split; [done|]. split; [constructor|].
    split; [simpl; lia|]. split; [done|]. split; [done|].
    intros e' [= <-]. congruence.
  - intros n k last s h e s1 h2 r s' h' Hf He Hon Hrun (new' & Hnew' & IH).
    apply on_exception_run in Hon as (new & Hnew & Hout & _).
    cbn [events] in Hnew. eexists (new' ++ new ++ [_]). split.
    { by rewrite Hnew', Hnew, <- !app_assoc. }
    right. rewrite !outcomes_of_app, Hout. cbn [app].
    destruct IH as [(-> & -> & -> & ->) | (es & o & Ho & Hes & Hlen & Hv & Hn & Hb)].
    + exists [], (Some e). split; [done|]. split; [constructor|].
      split; [simpl; lia|].
      assert (Hno : forall v : A, exhausted methods fcs (Some e) <> Ret v).
      { intros v. unfold exhausted, mbind, result_bind.
        by destruct (truth methods e) as [[]|]. }
      split; [intros v Hv; by apply Hno in Hv|]. split; [done|].
      intros e' [= <-]. congruence.
    + exists (e :: es), o. rewrite Ho. split; [done|].
      split; [by constructor|]. split; [simpl; lia|]. done.
Qed.

(** The sleeps of a run whose attempts end with the last one allowed: the
    call of [time.sleep] that follows attempt [k + i] is given the delay
    computed from the [i]-th value the random generator yields during the
    run, and every sleep that returns is followed by another call. *)
Lemma attempts_sleeps n k last s h r s' h' :
  (n = 0%nat \/ Z.of_nat (k + n) = retries) ->
  attempts fcs (seq k n) last s h = (r, (s', h')) ->
  exists new,
    events h' = new ++ events h /\
    (length (outcomes_of new) <= n)%nat /\
    (n = 0%nat /\ new = []
     \/ length (outcomes_of new) = S (length (sleeps_of new))) /\
    (length (sleep_calls_of new) <= length (outcomes_of new))%nat /\
    (Z.of_nat (k + length (sleep_calls_of new)) < Z.max retries (Z.of_nat k + 1))%Z /\
    forall i x, sleeps_of new !! i = Some x ->
      sleep_time (k + i) (random (draws h + i)) = Ret x /\ sleepable num x.
Proof.
  intros Hk Hrun. revert Hk. revert n k last s h r s' h' Hrun.
  apply (attempts_ind (fun n k last s h r s' h' =>
    (n = 0%nat \/ Z.of_nat (k + n) = retries) ->
    exists new,
      events h' = new ++ events h /\
      (length (outcomes_of new) <= n)%nat /\
      (n = 0%nat /\ new = []
       \/ length (outcomes_of new) = S (length (sleeps_of new))) /\
      (length (sleep_calls_of new) <= length (outcomes_of new))%nat /\
      (Z.of_nat (k + length (sleep_calls_of new)) < Z.max retries (Z.of_nat k + 1))%Z /\
      forall i x, sleeps_of new !! i = Some x ->
        sleep_time (k + i) (random (draws h + i)) = Ret x /\ sleepable num x)).
  - intros k last s h _. exists []. split; [done|]. split; [simpl; lia|].
    split; [by left|]. split; [simpl; lia|]. split; [simpl; lia|]. by intros [|].
  - intros n k last s h v s1 Hf _. eexists [_]. split; [done|].
    split; [simpl; lia|]. split; [by right|]. split; [simpl; lia|].
    split; [simpl; lia|]. by intros [|].
  - intros n k last s h e s1 Hf He _. eexists [_]. split; [done|].
    split; [simpl; lia|]. split; [by right|]. split; [simpl; lia|].
    split; [simpl; lia|]. by intros [|].
  - intros n k last s h e s1 err h2 Hf He Hon Hk.
    apply on_exception_run in Hon as (new & Hnew & Hout & Hsl & Hc & Hlt).
    cbn [events] in Hnew. eexists (new ++ [_]). split.
    { by rewrite <- app_assoc. }
    rewrite outcomes_of_app, sleeps_of_app, sleep_calls_of_app, Hout, Hsl.
    change (outcomes_of [Invoked k (Some e)]) with [Some e].
    change (sleeps_of [Invoked (N:=N) k (Some e)]) with (@nil N).
    change (sleep_calls_of [Invoked (N:=N) k (Some e)]) with (@nil N).
    cbn [app length].
    split; [lia|]. split; [by right|]. split; [lia|]. split.
    + destruct (sleep_calls_of new) as [|? [|]]; simpl in *; try lia.
      assert (Z.of_nat k < retries - 1)%Z by (by apply Hlt). lia.
    + by intros [|i] x.
  - intros n k last s h e s1 h2 r s' h' Hf He Hon Hrun IH Hk.
    assert (Hk' : n = 0%nat \/ Z.of_nat (S k + n) = retries) by lia.
    destruct (IH Hk') as (new' & Hnew' & Hle & Hcnt & Hcalls & Hlt & Hsl).
    clear IH. apply on_exception_run in Hon as (new & Hnew & Hout & Hon).
    cbn [events] in Hnew. eexists (new' ++ new ++ [_]). split.
    { by rewrite Hnew', Hnew, <- !app_assoc. }
    rewrite !outcomes_of_app, !sleeps_of_app, !sleep_calls_of_app, Hout.
    change (outcomes_of [Invoked k (Some e)]) with [Some e].
    change (sleeps_of [Invoked (N:=N) k (Some e)]) with (@nil N).
    change (sleep_calls_of [Invoked (N:=N) k (Some e)]) with (@nil N).
    cbn [app]. rewrite !length_app. cbn [length].
    destruct (Z.of_nat k <? retries - 1)%Z eqn:Hkr.
    + apply Z.ltb_lt in Hkr.
      destruct Hon as (x & Hx & Hok & -> & -> & Hdr). cbn [draws] in *.
      cbn [length app]. split; [lia|].
      assert (n <> 0)%nat as Hn by lia.
      destruct Hcnt as [[-> _]|Hcnt]; [done|].
      split; [right; lia|]. split; [lia|]. split; [lia|].
      intros [|i] y Hy; cbn in Hy.
      * injection Hy as <-. by rewrite !Nat.add_0_r.
      * apply Hsl in Hy as [Hy Hok']. split; [|done].
        replace (k + S i)%nat with (S k + i)%nat by lia.
        rewrite Hdr in Hy. destruct (py_bool jitter) eqn:Hj.
        -- by replace (draws h + S i)%nat with (S (draws h) + i)%nat by lia.
        -- by rewrite (sleep_time_no_jitter _ _ (random (draws h + i)) Hj).
    + apply Z.ltb_ge in Hkr.
      destruct Hon as (-> & -> & Hdr).
      assert (n = 0)%nat as -> by lia.
      destruct Hcnt as [[_ ->]|Hcnt]; [|simpl in Hle; lia].
      simpl. split; [lia|]. split; [by right|]. split; [lia|]. split; [lia|].
      by intros [|].
Qed.

(** With an operation that always raises a true [Exception] and delays
    that [time.sleep] accepts, a run uses every attempt and ends after the
    loop. *)
Lemma attempts_all_fail n :
  (forall s, exists e t, (func s).1 = Raise e /\ is_Exception e = true /\
                         str methods e = Ret t) ->
  (forall k m, (Z.of_nat k < retries - 1)%Z ->
     exists x, sleep_time k (random m) = Ret x /\ sleepable num x) ->
  forall k last s h,
  exists es s' h' new,
    attempts fcs (seq k n) last s h =
      (exhausted methods fcs (from_option Some last (list.last es)), (s', h')) /\
    events h' = new ++ events h /\
    outcomes_of new = map Some es /\
    length es = n /\
    Forall (fun e => exists s0, (func s0).1 = Raise e) es.
Proof.
  intros Hfail Hsleep. induction n as [|n IH]; intros k last s h.
  - exists [], s, h, []. by repeat split.
  - cbn [seq Retry.attempts]. destruct (Hfail s) as (e & t & Hf & He & Hs).
    destruct (func s) as [r1 s1] eqn:Hfs. simpl in Hf. subst r1.
    cbn [raised]. rewrite He.
    set (h1 := {| draws := draws h; events := Invoked k (Some e) :: events h |}).
    assert (exists h2 new, on_exception fcs k e h1 = (Ret tt, h2) /\
              events h2 = new ++ events h1 /\ outcomes_of new = [])
      as (h2 & new & -> & Hnew & Hout).
    { destruct (Z_lt_ge_dec (Z.of_nat k) (retries - 1)) as [Hlt|Hge].
      - destruct (Hsleep k (draws h1) Hlt) as (x & Hx & Hok).
        destruct (on_exception_ok fcs k e h1 x t Hlt Hx Hok Hs) as [h2 Hon].
        exists h2. pose proof Hon as Hon'.
        apply on_exception_run in Hon' as (new & Hnew & Hout & _). by exists new.
      - pose proof (on_exception_last fcs k e h1 t ltac:(lia) Hs) as Hon.
        eexists. pose proof Hon as Hon'.
        apply on_exception_run in Hon' as (new & Hnew & Hout & _). by exists new. }
    destruct (IH (S k) (Some e) s1 h2) as (es & s' & h' & new' & -> & Hnew' & Hout' & Hlen & Hall).
    exists (e :: es), s', h', (new' ++ new ++ [Invoked k (Some e)]).
    split.
    { do 2 f_equal. destruct es as [|e' es'] using rev_ind; [done|].
      by rewrite app_comm_cons, !last_snoc. }
    split. { rewrite Hnew', Hnew. by rewrite <- !app_assoc. }
    split. { rewrite !outcomes_of_app, Hout, Hout'. done. }
    split; [simpl; lia|]. constructor; [|done]. exists s. by rewrite Hfs.
Qed.


End Loop.
Local Abbreviation wrapper := (wrapper num methods random retries delay backoff jitter).

(** The record of every run of the decorated function. *)
Lemma wrapper_sleeps func_call_str s h r s' h' :
  wrapper func_call_str func s h = (r, (s', h')) ->
  exists new,
    events h' = new ++ events h /\
    (length (outcomes_of new) <= Z.to_nat retries)%nat /\
    (new = [] \/ length (outcomes_of new) = S (length (sleeps_of new))) /\
    (length (sleep_calls_of new) <= length (outcomes_of new))%nat /\
    (Z.of_nat (length (sleep_calls_of new)) < Z.max retries 1)%Z /\
    forall i x, sleeps_of new !! i = Some x ->
      sleep_time i (random (draws h + i)) = Ret x /\ sleepable num x.
Proof.
  unfold Retry.wrapper. destruct func_call_str as [fcs|e].
  - intros Hrun. apply attempts_sleeps in Hrun; [|lia].
    destruct Hrun as (new & Hnew & Hle & Hcnt & Hcalls & Hlt & Hsl).
    exists new. split; [done|]. split; [done|].
    split; [destruct Hcnt as [[_ ->]|]; auto|]. split; [done|].
    split; [simpl in Hlt; lia | done].
  - intros [= <- <- <-]. exists []. split; [done|]. split; [simpl; lia|].
    split; [by left|]. split; [simpl; lia|]. split; [simpl; lia|]. by intros [|].
Qed.

(** A sleep returns exactly between two calls of the wrapped function. *)
Lemma sleeps_between_calls {X} (outcomes : list X) (sleeps : list N) (new : list (hevent N)) :
  new = [] /\ outcomes = [] /\ sleeps = [] \/ length outcomes = S (length sleeps) ->
  forall k, (S k < length outcomes)%nat <-> is_Some (sleeps !! k).
Proof.
  intros [(_ & -> & ->)|Hlen] k; rewrite lookup_lt_is_Some; simpl; lia.
Qed.

(** C1, amended.  With at least one attempt allowed, a call text that can
    be formatted, an operation that whenever it is called raises an
    [Exception] that is true and has a [str], and delays that [time.sleep]
    accepts, the decorated function calls the operation exactly [retries]
    times, sleeps after every call but the last, and then raises what the
    last call raised. *)
Theorem always_failing_uses_all_attempts func_call_str :
  (1 <= retries)%Z ->
  (forall s, exists e t, (func s).1 = Raise e /\ is_Exception e = true /\
                         str methods e = Ret t /\ truth methods e = Ret true) ->
  (forall k m, (Z.of_nat k < retries - 1)%Z ->
     exists x, sleep_time k (random m) = Ret x /\ sleepable num x) ->
  forall s h, exists es e_last s' h' new,
    wrapper (Ret func_call_str) func s h = (Raise e_last, (s', h')) /\
    events h' = new ++ events h /\
    outcomes_of new = map Some es /\
    length es = Z.to_nat retries /\
    last es = Some e_last /\
    S (length (sleeps_of new)) = Z.to_nat retries.
Proof.
  intros Hn Hfail Hsleep s h.
  destruct (attempts_all_fail func_call_str (Z.to_nat retries)) with (k := 0%nat)
    (last := @None exn) (s := s) (h := h)
    as (es & s' & h' & new & Hrun & Hnew & Hout & Hlen & Hall); [|done|].
  { intros s0. destruct (Hfail s0) as (e & t & ? & ? & ? & ?). by exists e, t. }
  destruct (last es) as [e_last|] eqn:Hlast; cycle 1.
  { apply last_None in Hlast. subst es. simpl in Hlen. lia. }
  exists es, e_last, s', h', new. unfold Retry.wrapper.
  assert (truth methods e_last = Ret true) as Ht.
  { apply last_Some in Hlast as [es' ->]. apply Forall_app in Hall as [_ Hall].
    inversion Hall as [|? ? [s0 Hs0] _]; subst.
    destruct (Hfail s0) as (e & t & He & _ & _ & Ht). congruence. }
  split. { rewrite Hrun. simpl. unfold exhausted, mbind, result_bind. by rewrite Ht. }
  split; [done|]. split; [done|]. split; [done|]. split; [done|].
  pose proof Hrun as Hrun'. apply attempts_sleeps in Hrun'; [|lia].
  destruct Hrun' as (new' & Hnew' & _ & Hcnt & _).
  rewrite Hnew in Hnew'. apply app_inv_tail in Hnew' as <-.
  rewrite Hout, length_map, Hlen in Hcnt.
  destruct Hcnt as [[Hz _]|Hcnt]; lia.
Qed.

(** C3, amended.  Whenever a failed attempt [k] is followed by another
    attempt, the decorated function has slept once in between, and the
    argument of that call of [time.sleep] is [delay * backoff**k + r] as
    Python computes it, where [r] is [random.uniform(0, jitter * (delay *
    backoff**k))] for the value [random()] returns at that point, the
    [k]-th of the run: the width of the jitter is a share of the delay of
    attempt [k], not of the base delay.  With a false [jitter] nothing is
    added. *)
Theorem retry_delay_jitter_scales_with_attempt func_call_str s h r s' h' :
  wrapper func_call_str func s h = (r, (s', h')) ->
  exists new,
    events h' = new ++ events h /\
    (forall k, (S k < length (outcomes_of new))%nat <-> is_Some (sleeps_of new !! k)) /\
    forall k secs, sleeps_of new !! k = Some secs ->
      exists p base,
        py_pow backoff k = Ret p /\ py_mul delay p = Ret base /\
        if py_bool jitter
        then exists width rnd,
               py_mul jitter base = Ret width /\
               uniform num py_zero width (random (draws h + k)) = Ret rnd /\
               py_add base rnd = Ret secs
        else secs = base.
Proof.
  intros Hrun. apply wrapper_sleeps in Hrun.
  destruct Hrun as (new & Hnew & _ & Hcnt & _ & _ & Hsl).
  exists new. split; [done|]. split.
  { apply (sleeps_between_calls _ _ new).
    destruct Hcnt as [->|]; [left | right]; done. }
  intros k secs Hk. apply Hsl in Hk as [Hk _]. revert Hk.
  unfold Retry.sleep_time, mbind, result_bind.
  destruct (py_pow backoff k) as [p|] eqn:Hp; [|done].
  destruct (py_mul delay p) as [base|] eqn:Hbase; [|done].
  intros Hk. exists p, base. split; [done|]. split; [done|].
  destruct (py_bool jitter); [|by injection Hk].
  destruct (py_mul jitter base) as [width|] eqn:Hw; [|done].
  destruct (uniform num py_zero width _) as [rnd|] eqn:Hr; [|done].
  by exists width, rnd.
Qed.

End Runs.
(** *** Rounded arithmetic *)

Section Rounded.
Variable rnd : Q -> Q.
Hypothesis rnd_monotone : forall x y, (x <= y)%Q -> (rnd x <= rnd y)%Q.
Hypothesis rnd_idempotent : forall x, (rnd (rnd x) == rnd x)%Q.
Hypothesis rnd_zero : (rnd 0 == 0)%Q.

Lemma rnd_proper x y : (x == y)%Q -> (rnd x == rnd y)%Q.
Proof.
  intros Hxy. apply Qle_antisym; apply rnd_monotone; rewrite Hxy; apply Qle_refl.
Qed.

Lemma rnd_nonneg x : (0 <= x)%Q -> (0 <= rnd x)%Q.
Proof. intros Hx. rewrite <- rnd_zero. by apply rnd_monotone. Qed.

(** The delay lies between the base delay of the attempt and the base
    delay with the whole jitter added, all as computed. *)
Lemma rounded_sleep_time_bounds (d b j : Q) (k : nat) (u x : Q) :
  (0 <= d)%Q -> (0 <= b)%Q -> (0 <= j)%Q -> (0 <= u <= 1)%Q ->
  sleep_time (rounded rnd) d b j k u = Ret x ->
  (rnd (d * rnd (b ^ Z.of_nat k)) <= x <=
   rnd (rnd (d * rnd (b ^ Z.of_nat k)) + rnd (j * rnd (d * rnd (b ^ Z.of_nat k)))))%Q.
Proof.
  intros Hd Hb Hj [Hu0 Hu1]. unfold sleep_time, uniform, mbind, result_bind.
  cbn [py_pow py_mul py_add py_sub py_zero py_bool rounded].
  pose proof (rnd_nonneg _ (Qpower_0_le b (Z.of_nat k) Hb)) as Hp.
  set (p := rnd (b ^ Z.of_nat k)) in *.
  assert (0 <= rnd (d * p))%Q as Hbase by (apply rnd_nonneg; nra).
  assert (rnd (rnd (d * p)) == rnd (d * p))%Q as Hbase' by apply rnd_idempotent.
  set (base := rnd (d * p)) in *.
  assert (0 <= rnd (j * base))%Q as HB by (apply rnd_nonneg; nra).
  assert (rnd (rnd (j * base)) == rnd (j * base))%Q as HB' by apply rnd_idempotent.
  destruct (negb (Qeq_bool j 0)) eqn:Hjb.
  - set (B := rnd (j * base)) in *.
    assert (rnd (B - 0) == B)%Q as HW.
    { rewrite <- HB' at 2. apply rnd_proper. lra. }
    set (W := rnd (B - 0)) in *.
    assert (0 <= rnd (W * u) <= B)%Q as [HM0 HM1].
    { split; [apply rnd_nonneg; nra|].
      rewrite <- HB'. apply rnd_monotone. nra. }
    assert (rnd (0 + rnd (W * u)) == rnd (W * u))%Q as HR.
    { rewrite <- (rnd_idempotent (W * u)) at 2. apply rnd_proper. lra. }
    set (M := rnd (W * u)) in *. set (R := rnd (0 + M)) in *.
    intros [= <-]. split.
    + rewrite <- Hbase' at 1. apply rnd_monotone. lra.
    + apply rnd_monotone. lra.
  - intros [= <-]. apply negb_false_iff, Qeq_bool_eq in Hjb. split; [lra|].
    rewrite <- Hbase' at 1. apply rnd_monotone. lra.
Qed.

Context {St A : Type}.
Variable methods : exception_methods.
Variable random : nat -> Q.
Variables (retries : Z) (delay backoff jitter : Q).
Variable func_call_str : result string.
Variable func : St -> result A * St.

End Rounded.

(** C1, as stated, fails.  An operation that raises [KeyboardInterrupt]
    is called once and not three times; with a negative delay the operation
    is called once and the [ValueError] of [time.sleep] is raised in place
    of the operation's exception; and when the operation's exceptions are
    false objects, three calls end in a [RuntimeError]. *)
Lemma failing_operation_not_retried_to_the_end :
  (let run := wrapper exact plain (fun _ => 1 # 2)%Q 3 2%Q 1%Q (1 # 10)%Q (Ret "f()")
                interrupts tt fresh in
   outcomes_of (events run.2.2) = [Some (mkExn KeyboardInterrupt "")]) /\
  (let run := wrapper exact plain (fun _ => 1 # 2)%Q 3 (-1)%Q 1%Q (1 # 10)%Q (Ret "f()")
                always_fails tt fresh in
   outcomes_of (events run.2.2) = [Some (mkExn Exception "boom")] /\
   run.1 = Raise (mkExn ValueError "sleep length must be non-negative")) /\
  (let run := wrapper exact sized (fun _ => 1 # 2)%Q 3 2%Q 1%Q (1 # 10)%Q (Ret "f()")
                fails_silently tt fresh in
   length (outcomes_of (events run.2.2)) = 3%nat /\
   run.1 = Raise (mkExn RuntimeError "函数 f() 重试耗尽，但未捕获到异常")).
Proof. vm_compute. repeat split. Qed.

Lemma always_failing_uses_all_attempts_witness :
  exists es e_last s' h' new,
    wrapper exact plain (fun _ => 1 # 2)%Q 3 2%Q 1%Q (1 # 10)%Q (Ret "f()") always_fails tt fresh
      = (Raise e_last, (s', h')) /\
    events h' = new ++ events fresh /\
    outcomes_of new = map Some es /\
    length es = Z.to_nat 3 /\
    last es = Some e_last /\
    S (length (sleeps_of new)) = Z.to_nat 3.
Proof.
  apply (always_failing_uses_all_attempts exact plain (fun _ => 1 # 2)%Q 3 2%Q 1%Q (1 # 10)%Q
           always_fails "f()").
  - lia.
  - intros s. eexists _, _. repeat split; reflexivity.
  - intros k m Hk. assert (k = 0 \/ k = 1)%nat as [-> | ->] by lia.
    + eexists. split; [reflexivity|]. split; [reflexivity|].
      eexists. split; [reflexivity|]. vm_compute. discriminate.
    + eexists. split; [reflexivity|]. split; [reflexivity|].
      eexists. split; [reflexivity|]. vm_compute. discriminate.
Defined.



(** C3, as stated, fails.  With delay 2, backoff 2 and jitter 0.1, when
    [random()] returns 0.75, the sleep after failed attempt 1 lasts 4.3
    seconds: 0.3 more than [delay * backoff^1], which no draw from
    [0, jitter * delay] = [0, 0.2] can give, and it is not the delay of the
    specification's formula. *)
Lemma jitter_exceeds_share_of_base_delay :
  exists secs,
    sleeps_of (events (wrapper exact plain (fun _ => 3 # 4)%Q 3 2%Q 2%Q (1 # 10)%Q (Ret "f()")
                         always_fails tt fresh).2.2) !! 1%nat = Some secs /\
    ~ (exists rnd, (secs == 2 * 2 ^ 1 + rnd)%Q /\ (0 <= rnd <= (1 # 10) * 2)%Q) /\
    ~ (exists spec, spec_sleep_time exact 2%Q 2%Q (1 # 10)%Q 1 (3 # 4)%Q = Ret spec /\
                    (secs == spec)%Q).
Proof.
  eexists. split; [vm_compute; reflexivity|]. split.
  - intros (rnd & Heq & Hlo & Hhi). change (2 ^ 1)%Q with 2%Q in Heq. lra.
  - intros (spec & [= <-] & Heq). vm_compute in Heq. discriminate.
Qed.

Lemma retry_delay_jitter_scales_with_attempt_witness :
  exists new,
    events (wrapper exact plain (fun _ => 3 # 4)%Q 3 2%Q 2%Q (1 # 10)%Q (Ret "f()")
              always_fails tt fresh).2.2
      = new ++ events fresh /\
    (forall k, (S k < length (outcomes_of new))%nat <-> is_Some (sleeps_of new !! k)) /\
    forall k secs, sleeps_of new !! k = Some secs ->
      exists p base,
        py_pow (Number := exact) 2%Q k = Ret p /\ py_mul (Number := exact) 2%Q p = Ret base /\
        if py_bool (Number := exact) (1 # 10)%Q
        then exists width rnd,
               py_mul (Number := exact) (1 # 10)%Q base = Ret width /\
               uniform exact (py_zero (Number := exact)) width (3 # 4)%Q = Ret rnd /\
               py_add (Number := exact) base rnd = Ret secs
        else secs = base.
Proof.
  apply (retry_delay_jitter_scales_with_attempt exact plain (fun _ => 3 # 4)%Q 3 2%Q 2%Q (1 # 10)%Q
           always_fails (Ret "f()") tt fresh
           (wrapper exact plain (fun _ => 3 # 4)%Q 3 2%Q 2%Q (1 # 10)%Q (Ret "f()")
              always_fails tt fresh).1
           (wrapper exact plain (fun _ => 3 # 4)%Q 3 2%Q 2%Q (1 # 10)%Q (Ret "f()")
              always_fails tt fresh).2.1).
  vm_compute. reflexivity.
Defined.

End RetryFacts.

Module FacadeFacts.
Import Retry Facade RetryFacts.


(** The delays of the interaction methods: between 3 and 3.3 seconds, which
    [time.sleep] accepts. *)
Lemma facade_delay (random : nat -> Q) :
  (forall n, 0 <= random n < 1)%Q ->
  forall k m : nat,
  exists x, sleep_time exact 3%Q 1%Q (1 # 10)%Q k (random m) = Ret x /\
            sleepable exact x /\ (3 <= x <= 33 # 10)%Q.
Proof.
  intros Hrand k m.
  assert (exists x, sleep_time exact 3%Q 1%Q (1 # 10)%Q k (random m) = Ret x)
    as [x Hx] by (eexists; reflexivity).
  exists x. split; [exact Hx|].
  pose proof (rounded_sleep_time_bounds (fun q => q) (fun x y H => H)
                (fun x => Qeq_refl x) (Qeq_refl 0) 3%Q 1%Q (1 # 10)%Q k (random m) x
                ltac:(lra) ltac:(lra) ltac:(lra)
                ltac:(pose proof (Hrand m); lra) Hx) as Hb.
  cbv beta in Hb. pose proof (Qpower_1 (Z.of_nat k)) as Hpw.
  set (pw := (1 ^ Z.of_nat k)%Q) in *.
  assert (3 <= x <= 33 # 10)%Q as Hsecs by lra.
  split; [|exact Hsecs]. split; [reflexivity|]. exists x. split; [|lra].
  cbn [py_seconds exact rounded].
  assert (Qle_bool (Qabs x) sleep_max = true) as ->; [|done].
  apply Qle_bool_iff. rewrite Qabs_pos; [|lra].
  apply Qle_trans with (33 # 10)%Q; [lra|]. by vm_compute.
Qed.

Lemma run_unfold drv random signature i p h :
  run drv random signature i (p, h) =
  wrapper exact plain random (Z.of_nat (retries_of i)) 3%Q 1%Q (1 # 10)%Q
    (func_call_str signature (name_of i)) (body_of drv i) p h.
Proof. by destruct i. Qed.









End FacadeFacts.

Module ConfigFacts.
Import Config.

(** *** Steps compose *)

Lemma step_ok_refl allowed w : step_ok allowed w w.
Proof. split; [by exists [] | done]. Qed.

Lemma step_ok_trans allowed w1 w2 w3 :
  step_ok allowed w1 w2 -> step_ok allowed w2 w3 -> step_ok allowed w1 w3.
Proof.
  intros [(n1 & H1 & F1) D1] [(n2 & H2 & F2) D2]. split.
  - exists (n2 ++ n1). split; [by rewrite H2, H1, app_assoc|].
    apply Forall_app. by split.
  - intros k Hk. by apply D2, D1.
Qed.

Lemma step_ok_event allowed ev w :
  allowed ev ->
  step_ok allowed w {| fs := fs w; stdin := stdin w; trace := ev :: trace w |}.
Proof. intros H. split; [exists [ev]; by repeat constructor | done]. Qed.

Lemma step_ok_fs allowed f w :
  (forall k, fs w !! k = Some Dir -> f (fs w) !! k = Some Dir) ->
  step_ok allowed w {| fs := f (fs w); stdin := stdin w; trace := trace w |}.
Proof. intros H. split; [by exists [] | done]. Qed.

Section Safe.
Variable allowed : event -> Prop.

Lemma safe_ret {A} E (a : A) : safe allowed E (mret a).
Proof. intros w r w' [= <- <-]. split; [apply step_ok_refl | done]. Qed.

Lemma safe_raise {A} (E : exn -> Prop) e : E e -> safe allowed E (@raise world A e).
Proof.
  intros He w r w' [= <- <-]. split; [apply step_ok_refl|]. by intros ? [= <-].
Qed.

Lemma safe_bind {A B} E (m : M world A) (k : A -> M world B) :
  safe allowed E m -> (forall a, safe allowed E (k a)) -> safe allowed E (m ≫= k).
Proof.
  intros Hm Hk w r w' Hrun. unfold mbind, M_bind in Hrun.
  destruct (m w) as [[a|e] w1] eqn:Hmw.
  - destruct (Hm _ _ _ Hmw) as [H1 _]. destruct (Hk a _ _ _ Hrun) as [H2 HE].
    split; [by eapply step_ok_trans | done].
  - injection Hrun as <- <-. destruct (Hm _ _ _ Hmw) as [H1 H2].
    split; [done|]. intros e0 [= <-]. by apply H2.
Qed.

Lemma safe_weaken {A} (E E' : exn -> Prop) (m : M world A) :
  (forall e, E e -> E' e) -> safe allowed E m -> safe allowed E' m.
Proof.
  intros HE Hm w r w' Hrun. destruct (Hm _ _ _ Hrun) as [H1 H2].
  split; [done|]. intros e He. by apply HE, H2.
Qed.

Lemma safe_try_except {A} E (body : M world A) handler :
  safe allowed (fun _ => True) body ->
  (forall e h, handler e = Some h -> safe allowed E h) ->
  (forall e, handler e = None -> E e) ->
  safe allowed E (try_except body handler).
Proof.
  intros Hbody Hh Hnone w r w' Hrun. unfold try_except in Hrun.
  destruct (body w) as [[a|e] w1] eqn:Hb;
    destruct (Hbody _ _ _ Hb) as [H1 _].
  - injection Hrun as <- <-. by split.
  - destruct (handler e) as [h|] eqn:Hhe.
    + destruct (Hh _ _ Hhe _ _ _ Hrun) as [H2 HE].
      split; [by eapply step_ok_trans | done].
    + injection Hrun as <- <-. split; [done|]. intros ? [= <-]. by apply Hnone.
Qed.

(** *** The primitives *)
Variable pf : platform.

Lemma safe_record E ev : allowed ev -> safe allowed E (record ev).
Proof.
  intros H w r w' [= <- <-]. split; [by apply step_ok_event | done].
Qed.

Lemma safe_logger E lv m : allowed (Logged lv m) -> safe allowed E (logger lv m).
Proof. apply safe_record. Qed.

Lemma safe_lift {A} (E : exn -> Prop) (r : result A) :
  (forall e, r = Raise e -> E e) -> safe allowed E (lift r).
Proof. intros HE w r' w' [= <- <-]. split; [apply step_ok_refl | done]. Qed.

Lemma safe_print : allowed Printed -> safe allowed (fun _ => True) (print_ pf).
Proof.
  intros H w r w' Hrun. unfold print_ in Hrun.
  destruct (stdout_error pf (trace w)).
  - injection Hrun as <- <-. split; [apply step_ok_refl | done].
  - injection Hrun as <- <-. split; [by apply step_ok_event | done].
Qed.

Lemma safe_os_path_exists E path : safe allowed E (os_path_exists pf path).
Proof. intros w r w' [= <- <-]. split; [apply step_ok_refl | done]. Qed.

Lemma safe_get url : allowed (HttpGet url) -> safe allowed (fun _ => True) (get pf url).
Proof.
  intros H w r w' [= <- <-]. split; [by apply step_ok_event | done].
Qed.

Lemma safe_raise_for_status r : safe allowed (fun _ => True) (raise_for_status r).
Proof.
  unfold raise_for_status. destruct (status_error r);
    [by apply safe_raise | apply safe_ret].
Qed.

Lemma safe_open_wb path : safe allowed (fun _ => True) (open_wb pf path).
Proof.
  intros w r w' Hrun. unfold open_wb in Hrun.
  destruct (fs w !! resolve pf path) as [[|c]|] eqn:Hl.
  - injection Hrun as <- <-. split; [apply step_ok_refl | done].
  - injection Hrun as <- <-. split; [|done]. apply step_ok_fs.
    intros k Hk. rewrite lookup_insert_ne; [done | congruence].
  - injection Hrun as <- <-. split; [|done]. apply step_ok_fs.
    intros k Hk. rewrite lookup_insert_ne; [done | congruence].
Qed.

Lemma safe_write path chunk : safe allowed (fun _ => True) (write pf path chunk).
Proof.
  intros w r w' [= <- <-]. split; [|done]. apply step_ok_fs.
  intros k Hk. destruct (decide (resolve pf path = k)) as [->|Hne].
  - by rewrite lookup_alter_eq, Hk.
  - by rewrite lookup_alter_ne.
Qed.

Lemma safe_write_chunks path cs err :
  safe allowed (fun _ => True) (write_chunks pf path cs err).
Proof.
  induction cs as [|c cs IH]; simpl.
  - destruct err; [by apply safe_raise | apply safe_ret].
  - apply safe_bind; [apply safe_write | done].
Qed.

Lemma safe_extract member : safe allowed (fun _ => True) (extract pf member).
Proof.
  intros w r w' Hrun. unfold extract in Hrun.
  destruct member as [path [|c]]; simpl in Hrun;
    destruct (fs w !! resolve pf path) as [[|c']|] eqn:Hl;
    injection Hrun as <- <-; (split; [|done]);
    try apply step_ok_refl; apply step_ok_fs; intros k Hk;
    (destruct (decide (resolve pf path = k)) as [Heq|Hne];
     [subst k; rewrite lookup_insert_eq; congruence | by rewrite lookup_insert_ne]).
Qed.

Lemma safe_extract_members members :
  safe allowed (fun _ => True) (extract_members pf members).
Proof.
  induction members as [|m ms IH]; simpl; [apply safe_ret|].
  apply safe_bind; [apply safe_extract | done].
Qed.

Lemma safe_extractall path : safe allowed (fun _ => True) (extractall pf path).
Proof.
  intros w r w' Hrun. unfold extractall in Hrun.
  destruct (fs w !! resolve pf path) as [[|c]|].
  - injection Hrun as <- <-. split; [apply step_ok_refl | done].
  - destruct (zip_entries pf c).
    + by eapply safe_extract_members.
    + injection Hrun as <- <-. split; [apply step_ok_refl | done].
  - injection Hrun as <- <-. split; [apply step_ok_refl | done].
Qed.

Lemma safe_os_remove path : safe allowed (fun _ => True) (os_remove pf path).
Proof.
  intros w r w' Hrun. unfold os_remove in Hrun.
  destruct (fs w !! resolve pf path) as [[|c]|] eqn:Hl;
    injection Hrun as <- <-; (split; [|done]); try apply step_ok_refl.
  apply step_ok_fs. intros k Hk. rewrite lookup_delete_ne; [done | congruence].
Qed.
End Safe.

(** *** The provisioner keeps to its plugin *)

Lemma safe_bind_ret {A B} allowed E (a : A) (k : A -> M world B) :
  safe allowed E (k a) -> safe allowed E (mret a ≫= k).
Proof. intros H w r w' Hrun. exact (H w r w' Hrun). Qed.

Lemma safe_bind_raise {A B} allowed (E : exn -> Prop) e (k : A -> M world B) :
  E e -> safe allowed E (raise e ≫= k).
Proof.
  intros He w r w' [= <- <-]. split; [apply step_ok_refl|]. by intros ? [= <-].
Qed.

Lemma safe_set_stdin allowed E lines :
  safe allowed E
    (fun w => (Ret tt, {| fs := fs w; stdin := lines; trace := trace w |})).
Proof.
  intros w r w' [= <- <-]. split; [|done]. split; [by exists [] | done].
Qed.

Section Provisioner.
Variable pf : platform.

Lemma safe_download_plugin name :
  safe (provision_event name) (fun e => is_Exception e = false)
    (download_plugin pf name).
Proof.
  unfold download_plugin. apply safe_try_except.
  - unfold url_of. destruct (PLUGIN_URLS !! name) as [url|] eqn:Hurl.
    + apply safe_bind_ret.
      apply safe_bind; [by apply safe_logger|]. intros _.
      apply safe_bind; [by apply safe_get|]. intros response.
      apply safe_bind; [apply safe_raise_for_status|]. intros _.
      apply safe_bind; [apply safe_open_wb|]. intros _.
      apply safe_bind; [apply safe_write_chunks|]. intros _.
      apply safe_bind; [by apply safe_logger|]. intros _.
      apply safe_bind; [apply safe_extractall|]. intros _.
      apply safe_bind; [apply safe_os_remove|]. intros _.
      apply safe_bind; [by apply safe_lift|]. intros cwd.
      apply safe_bind; [apply safe_os_path_exists|]. intros [|].
      * apply safe_bind; [by apply safe_logger | intros _; apply safe_ret].
      * apply safe_bind; [by apply safe_logger | intros _; apply safe_ret].
    + by apply safe_bind_raise.
  - intros e h Hh.
    destruct (is_RequestException e); [|destruct (is_BadZipFile e);
      [|destruct (is_Exception e); [|done]]];
      injection Hh as <-;
      (apply safe_bind; [by apply safe_logger | intros _; apply safe_ret]).
  - intros e He.
    destruct (is_RequestException e); [done|].
    destruct (is_BadZipFile e); [done|]. by destruct (is_Exception e).
Qed.

Lemma safe_ask name lines :
  safe (provision_event name) (fun _ => True) (ask pf name lines).
Proof.
  induction lines as [|item rest IH]; cbn [ask].
  - apply safe_bind; [by apply safe_record|]. intros _. by apply safe_raise.
  - apply safe_bind; [by apply safe_record|]. intros _.
    apply safe_bind; [apply safe_set_stdin|]. intros _.
    apply safe_bind; [by apply safe_lift|]. intros line.
    cbv zeta. destruct (str_in (lower (strip line)) ["y"; "yes"; "是"]%string).
    + eapply safe_weaken; [|apply safe_download_plugin]. done.
    + destruct (str_in (lower (strip line)) ["n"; "no"; "否"]%string).
      * apply safe_bind; [by apply safe_logger | intros _; apply safe_ret].
      * apply safe_bind; [by apply safe_print | done].
Qed.

Lemma safe_check_and_download_plugin name :
  safe (provision_event name) (fun _ => True) (check_and_download_plugin pf name).
Proof.
  unfold check_and_download_plugin.
  apply safe_bind; [by apply safe_lift|]. intros cwd.
  apply safe_bind; [apply safe_os_path_exists|]. intros [|].
  - apply safe_bind; [by apply safe_logger | intros _; apply safe_ret].
  - apply safe_bind; [by apply safe_logger|]. intros _.
    case_bool_decide.
    + apply safe_bind; [by apply safe_logger | intros _; apply safe_ret].
    + intros w r w' Hrun. by eapply safe_ask.
Qed.
End Provisioner.

(** *** The stages of [set_driver] *)

Lemma step_ok_weaken (P Q : event -> Prop) w w' :
  (forall ev, P ev -> Q ev) -> step_ok P w w' -> step_ok Q w w'.
Proof.
  intros HPQ [(new & Hnew & Hall) Hd]. split; [|done].
  exists new. split; [done|]. eapply Forall_impl; eauto.
Qed.

Lemma provision_not_skipped name n new :
  Forall (provision_event name) new -> ~ In (Logged WARNING (PluginSkipped n)) new.
Proof.
  intros Hall Hin. rewrite Forall_forall in Hall.
  apply list_elem_of_In in Hin. by apply Hall in Hin.
Qed.

Lemma stage_skipped name n new :
  Forall (stage_event name) new -> In (Logged WARNING (PluginSkipped n)) new -> n = name.
Proof.
  intros Hall Hin. rewrite Forall_forall in Hall.
  apply list_elem_of_In in Hin. apply Hall in Hin as [[]|[= ->]]. done.
Qed.

Section Stages.
Variable pf : platform.

Lemma first_existing_world paths w :
  exists found, first_existing pf paths w = (Ret found, w) /\
    match found with
    | Some path => In path paths /\ is_Some (fs w !! resolve pf path)
    | None => forall path, In path paths -> fs w !! resolve pf path = None
    end.
Proof.
  induction paths as [|path rest (found & IH & Hfound)]; simpl.
  - by exists None.
  - unfold mbind, M_bind, os_path_exists. case_bool_decide as Hex.
    + exists (Some path). split; [done|]. split; [by left | done].
    + exists found. split; [done|]. destruct found as [p|].
      * split; [right|]; apply Hfound.
      * intros p [<-|Hin]; [|by apply Hfound].
        by apply eq_None_not_Some.
Qed.

Lemma find_browser_world browser_path w r w' :
  find_browser pf browser_path w = (r, w') ->
  w' = w /\ forall e, r = Raise e -> e = no_browser.
Proof.
  unfold find_browser. destruct (negb (truthy browser_path)).
  - unfold mbind, M_bind.
    destruct (first_existing_world (default_paths pf) w) as (found & -> & _).
    destruct (negb (truthy _)); intros [= <- <-]; split; try done.
    by intros e [= <-].
  - intros [= <- <-]. by split.
Qed.

Lemma load_plugin_run flag name co w r w' :
  load_plugin pf flag name co w = (r, w') ->
  step_ok (stage_event name) w w' /\
  (forall co', r = Ret co' ->
     exists x new, co' = co ++ map add_extension x /\
       trace w' = new ++ trace w /\ Forall (stage_event name) new /\
       picked new flag name x).
Proof.
  unfold load_plugin. destruct flag; cycle 1.
  { intros [= <- <-]. split; [apply step_ok_refl|].
    intros co' [= <-]. exists [], []. rewrite app_nil_r.
    repeat split; try done. left. split; [done | by left]. }
  intros Hrun. apply bind_inv in Hrun as [(b & w1 & Hchk & Hrest)|(e & Hchk & ->)];
    apply safe_check_and_download_plugin in Hchk as [Hstep Hexn].
  - pose proof Hstep as [(new & Hnew & Hall) Hd].
    assert (Hall' : Forall (stage_event name) new)
      by (eapply Forall_impl; [done | by left]).
    destruct b.
    + injection Hrest as <- <-. split.
      { eapply step_ok_weaken; [|done]. by left. }
      intros co' [= <-]. exists [name], new.
      repeat split; try done. right. repeat split; try done.
      by eapply provision_not_skipped.
    + injection Hrest as <- <-. split.
      { eapply step_ok_trans.
        - eapply step_ok_weaken; [|done]. by left.
        - apply step_ok_event. by right. }
      intros co' [= <-].
      exists [], (Logged WARNING (PluginSkipped name) :: new).
      rewrite app_nil_r. simpl. rewrite Hnew.
      repeat split; try done.
      * constructor; [by right | done].
      * left. split; [done|]. right. by left.
  - split; [eapply step_ok_weaken; [|done]; by left | done].
Qed.

Lemma picked_iff name flag x new pre :
  (In (Logged WARNING (PluginSkipped name)) pre <->
   In (Logged WARNING (PluginSkipped name)) new) ->
  picked new flag name x -> picked pre flag name x.
Proof.
  intros Hiff [(-> & [->|Hin]) | (-> & -> & Hnot)].
  - left. split; [done | by left].
  - left. split; [done|]. right. by apply Hiff.
  - right. repeat split; try done. by rewrite Hiff.
Qed.

Lemma stage_any name new :
  In name plugin_names -> Forall (stage_event name) new -> Forall any_stage new.
Proof. intros Hin Hall. eapply Forall_impl; [done|]. intros ev H. by exists name. Qed.

Lemma load_gpt_rf_run co w :
  load_gpt_rf pf co w =
  (Ret (co ++ map add_extension
          (if bool_decide (is_Some (fs w !! resolve pf "gpt_rf"))
           then ["gpt_rf"%string] else [])), w).
Proof.
  unfold load_gpt_rf, os_path_exists, mbind, M_bind.
  case_bool_decide; [done | by rewrite app_nil_r].
Qed.

Lemma new_GuaPage_run co w :
  new_GuaPage pf co w =
  (match launch pf co (trace w) with
   | Some e => Raise e
   | None => Ret (mkGuaPage co)
   end,
   {| fs := fs w; stdin := stdin w; trace := Launched co :: trace w |}).
Proof. unfold new_GuaPage. by destruct (launch pf co (trace w)). Qed.

(** The shape of every run of [set_driver]. *)
Lemma set_driver_run hl bp ua proxy cf rf up w r w' :
  set_driver pf hl bp ua proxy cf rf up w = (r, w') ->
  (find_browser pf bp w = (Raise no_browser, w) /\ r = Raise no_browser /\ w' = w)
  \/ exists path pre,
       find_browser pf bp w = (Ret path, w) /\
       Forall any_stage pre /\
       (forall k, fs w !! k = Some Dir -> fs w' !! k = Some Dir) /\
       ((trace w' = pre ++ trace w /\ exists e, r = Raise e)
        \/ exists x1 x2 x3,
             picked pre cf "turnstilePatch" x1 /\
             picked pre rf "my-fingerprint-chrome" x2 /\
             picked pre up "cloudflare_ua_patch" x3 /\
             let g := if bool_decide (is_Some (fs w' !! resolve pf "gpt_rf"))
                      then ["gpt_rf"%string] else [] in
             let co := base_options pf hl path ua proxy
                       ++ map add_extension (x1 ++ x2 ++ x3 ++ g) in
             trace w' = Launched co :: pre ++ trace w /\
             r = match launch pf co (pre ++ trace w) with
                 | Some e => Raise e
                 | None => Ret (mkGuaPage co)
                 end).
Proof.
  unfold set_driver. intros Hrun.
  apply bind_inv in Hrun as [(path & w0 & Hfind & Hrun)|(e & Hfind & ->)];
    pose proof (find_browser_world _ _ _ _ Hfind) as [-> Hexn]; cycle 1.
  { left. rewrite (Hexn e eq_refl) in *. by repeat split. }
  right. exists path.
  remember (base_options pf hl path ua proxy) as base eqn:Hbase. clear Hbase.
  apply bind_inv in Hrun as [(co1 & w1 & H1 & Hrun)|(e & H1 & ->)];
    apply load_plugin_run in H1 as (S1 & R1); cycle 1.
  { destruct S1 as [(n1 & T1 & A1) D1]. exists n1.
    split; [done|]. split; [by eapply stage_any; [|done]; simpl; auto|].
    split; [done|]. left. split; [done|]. by exists e. }
  destruct (R1 _ eq_refl) as (x1 & n1 & -> & T1 & A1 & P1). clear R1.
  apply bind_inv in Hrun as [(co2 & w2 & H2 & Hrun)|(e & H2 & ->)];
    apply load_plugin_run in H2 as (S2 & R2); cycle 1.
  { destruct S2 as [(n2 & T2 & A2) D2]. exists (n2 ++ n1). split; [done|].
    split. { apply Forall_app. split; eapply stage_any; try done; simpl; auto. }
    split. { intros k Hk. apply D2. by apply S1. }
    left. split; [by rewrite T2, T1, app_assoc|]. by exists e. }
  destruct (R2 _ eq_refl) as (x2 & n2 & -> & T2 & A2 & P2). clear R2.
  apply bind_inv in Hrun as [(co3 & w3 & H3 & Hrun)|(e & H3 & ->)];
    apply load_plugin_run in H3 as (S3 & R3); cycle 1.
  { destruct S3 as [(n3 & T3 & A3) D3]. exists (n3 ++ n2 ++ n1). split; [done|].
    split. { rewrite !Forall_app. repeat split; eapply stage_any; try done; simpl; auto. }
    split. { intros k Hk. apply D3, S2. by apply S1. }
    left. split; [by rewrite T3, T2, T1, <- !app_assoc|]. by exists e. }
  destruct (R3 _ eq_refl) as (x3 & n3 & -> & T3 & A3 & P3). clear R3.
  exists (n3 ++ n2 ++ n1). split; [done|].
  split. { rewrite !Forall_app. repeat split; eapply stage_any; try done; simpl; auto. }
  assert (Htr : trace w3 = (n3 ++ n2 ++ n1) ++ trace w)
    by (by rewrite T3, T2, T1, <- !app_assoc).
  assert (Hfs : fs w' = fs w3 /\ exists co, 
     co = base ++ map add_extension
            (x1 ++ x2 ++ x3 ++ if bool_decide (is_Some (fs w3 !! resolve pf "gpt_rf"))
                               then ["gpt_rf"%string] else []) /\
     trace w' = Launched co :: trace w3 /\
     r = match launch pf co (trace w3) with
         | Some e => Raise e
         | None => Ret (mkGuaPage co)
         end).
  { apply bind_inv in Hrun as [(co & w4 & Hg & Hrun)|(e & Hg & _)];
      rewrite load_gpt_rf_run in Hg; [|done].
    injection Hg as <- <-. rewrite <- !app_assoc, <- !map_app in Hrun.
    apply bind_inv in Hrun as [(d & w5 & Hl & Hrun)|(e & Hl & ->)];
      rewrite new_GuaPage_run in Hl.
    - injection Hrun as <- <-. injection Hl as Hl <-.
      split; [done|]. eexists. split; [done|]. split; [done|].
      by destruct (launch pf _ (trace w3)).
    - injection Hl as Hl <-.
      split; [done|]. eexists. split; [done|]. split; [done|].
      by destruct (launch pf _ (trace w3)). }
  destruct Hfs as (Hfs & co & -> & Htr' & Hr).
  split. { intros k Hk. rewrite Hfs. apply S3, S2. by apply S1. }
  right. exists x1, x2, x3.
  assert (Hskip : forall n, In (Logged WARNING (PluginSkipped n)) (n3 ++ n2 ++ n1) <->
    In (Logged WARNING (PluginSkipped n)) n3 \/
    In (Logged WARNING (PluginSkipped n)) n2 \/
    In (Logged WARNING (PluginSkipped n)) n1)
    by (intros n; by rewrite !in_app_iff).
  split.
  { eapply picked_iff; [|exact P1]. rewrite Hskip. split; [|auto].
    intros [H|[H|H]]; [| |done].
    - by apply (stage_skipped _ _ _ A3) in H.
    - by apply (stage_skipped _ _ _ A2) in H. }
  split.
  { eapply picked_iff; [|exact P2]. rewrite Hskip. split; [|auto].
    intros [H|[H|H]]; [|done|].
    - by apply (stage_skipped _ _ _ A3) in H.
    - by apply (stage_skipped _ _ _ A1) in H. }
  split.
  { eapply picked_iff; [|exact P3]. rewrite Hskip. split; [|auto].
    intros [H|[H|H]]; [done| |].
    - by apply (stage_skipped _ _ _ A2) in H.
    - by apply (stage_skipped _ _ _ A1) in H. }
  cbv zeta. rewrite Hfs, <- Htr. by split.
Qed.

Lemma any_stage_about ev :
  any_stage ev -> about ev <> Some "gpt_rf"%string /\ forall co, ev <> Launched co.
Proof.
  intros (name & Hname & [Hev | ->]).
  - assert (name <> "gpt_rf"%string) as Hne.
    { simpl in Hname. intros ->. by destruct Hname as [|[|[|]]]. }
    destruct ev as [lv m| n | | url | co]; simpl in *; try done.
    + split; [|done]. destruct m; simpl in *; try congruence; done.
    + split; [congruence | done].
  - simpl in Hname. split; [|done]. simpl.
    intros [= ->]. by destruct Hname as [|[|[|]]].
Qed.

Lemma base_options_no_extension hl path ua proxy n :
  ~ In (add_extension n) (base_options pf hl path ua proxy).
Proof.
  unfold base_options. rewrite !in_app_iff.
  destruct (is_admin pf), (negb (is_windows pf)), proxy as [p|], ua as [u|];
    try destruct (truthy (Some p)); try destruct (truthy (Some u));
    simpl; intuition congruence.
Qed.


Lemma extension_calls n (exts : list string) :
  In (add_extension n) (map add_extension exts) <-> In n exts.
Proof.
  rewrite in_map_iff. split.
  - by intros (x & [= ->] & Hx).
  - intros Hx. by exists n.
Qed.

Lemma picked_elements pre flag name x n :
  picked pre flag name x -> In n x ->
  n = name /\ flag = true /\ ~ In (Logged WARNING (PluginSkipped name)) pre.
Proof.
  intros [(-> & _) | (-> & -> & Hnot)] Hin; [done|].
  destruct Hin as [<-|[]]. done.
Qed.
End Stages.

(** *** Runs of [set_driver] that reach the driver *)

Section Launches.
Variable pf : platform.

Lemma load_plugin_block flag name co w available w' :
  block_runs pf flag name w available w' ->
  load_plugin pf flag name co w =
  (Ret (co ++ map add_extension (attached flag available name)), w').
Proof.
  unfold block_runs, load_plugin, attached. destruct flag; cbn [andb].
  - intros (w1 & Hchk & ->). unfold mbind, M_bind. rewrite Hchk.
    destruct available; [done|]. by rewrite app_nil_r.
  - intros ->. by rewrite app_nil_r.
Qed.

Lemma block_runs_step flag name w available w' :
  block_runs pf flag name w available w' -> step_ok (stage_event name) w w'.
Proof.
  intros Hb. apply (load_plugin_block _ _ []) in Hb.
  by apply load_plugin_run in Hb as [Hstep _].
Qed.

Lemma block_runs_skipped name w w' :
  block_runs pf true name w false w' ->
  In (Logged WARNING (PluginSkipped name)) (trace w').
Proof. intros (w1 & _ & ->). by left. Qed.

(** When a browser is found and the three blocks run to their end,
    [set_driver] constructs the driver with the base options, the
    extensions of the plugins that are flagged and available, and
    [gpt_rf] when it is there; its result is the constructor's. *)
Lemma set_driver_launches hl bp ua proxy cf rf up w path b1 b2 b3 w1 w2 w3 :
  find_browser pf bp w = (Ret path, w) ->
  block_runs pf cf "turnstilePatch" w b1 w1 ->
  block_runs pf rf "my-fingerprint-chrome" w1 b2 w2 ->
  block_runs pf up "cloudflare_ua_patch" w2 b3 w3 ->
  let co := base_options pf hl path ua proxy
            ++ map add_extension
                 (attached cf b1 "turnstilePatch"
                  ++ attached rf b2 "my-fingerprint-chrome"
                  ++ attached up b3 "cloudflare_ua_patch"
                  ++ gpt_rf pf w3) in
  set_driver pf hl bp ua proxy cf rf up w =
  (match launch pf co (trace w3) with
   | Some e => Raise e
   | None => Ret (mkGuaPage co)
   end,
   {| fs := fs w3; stdin := stdin w3; trace := Launched co :: trace w3 |}).
Proof.
  intros Hfind H1 H2 H3. cbv zeta. unfold set_driver, mbind, M_bind.
  rewrite Hfind.
  rewrite (load_plugin_block _ _ _ _ _ _ H1), (load_plugin_block _ _ _ _ _ _ H2),
    (load_plugin_block _ _ _ _ _ _ H3), load_gpt_rf_run, new_GuaPage_run.
  fold (gpt_rf pf w3). rewrite <- !app_assoc, <- !map_app.
  by destruct (launch pf _ (trace w3)).
Qed.

Lemma step_ok_trace allowed w w' ev :
  step_ok allowed w w' -> In ev (trace w) -> In ev (trace w').
Proof.
  intros [(new & -> & _) _] Hin. apply in_app_iff. by right.
Qed.

Lemma step_ok_dir allowed w w' k :
  step_ok allowed w w' -> fs w !! k = Some Dir -> fs w' !! k = Some Dir.
Proof. intros [_ Hd]. apply Hd. Qed.
End Launches.

(** *** The claims on the provisioner and the configurator *)

(** C4.  When the directory named after the plugin exists under the working
    directory, [check_and_download_plugin] returns [True] and all it does is
    write one log record: no HTTP request, no prompt, nothing read from
    standard input, no file touched but the log. *)
Theorem present_plugin_needs_no_network (pf : platform) (name cwd : string) (w : world) :
  getcwd pf = Ret cwd ->
  is_Some (fs w !! resolve pf (os_path_join pf cwd name)) ->
  check_and_download_plugin pf name w =
  (Ret true, {| fs := fs w; stdin := stdin w;
                trace := Logged INFO (PluginPresent name) :: trace w |}).
Proof.
  intros Hcwd Hex.
  unfold check_and_download_plugin, os_path_exists, mbind, M_bind, lift.
  rewrite Hcwd. by rewrite bool_decide_eq_true_2.
Qed.

(** C6.  With no browser path passed and none of the platform's candidate
    paths on disk, [set_driver] raises [FileNotFoundError] and leaves the
    world as it was: no browser is started. *)
Theorem no_browser_no_launch (pf : platform) (hl : bool)
    (bp ua proxy : option string) (cf rf up : bool) (w : world) :
  truthy bp = false ->
  (forall path, In path (default_paths pf) -> fs w !! resolve pf path = None) ->
  cls no_browser = FileNotFoundError /\
  set_driver pf hl bp ua proxy cf rf up w = (Raise no_browser, w).
Proof.
  intros Hbp Hnone. split; [done|].
  assert (Hfind : find_browser pf bp w = (Raise no_browser, w)).
  { unfold find_browser. rewrite Hbp. cbn [negb]. unfold mbind, M_bind.
    destruct (first_existing_world pf (default_paths pf) w) as (found & -> & Hfound).
    destruct found as [path|].
    - destruct Hfound as [Hin [x Hx]]. rewrite (Hnone _ Hin) in Hx. done.
    - by rewrite Hbp. }
  unfold set_driver, mbind, M_bind. by rewrite Hfind.
Qed.

Lemma attached_elements flag available name n :
  In n (attached flag available name) <-> flag = true /\ available = true /\ n = name.
Proof.
  unfold attached. destruct flag, available; simpl; intuition congruence.
Qed.

Lemma gpt_rf_elements pf w n : In n (gpt_rf pf w) -> n = "gpt_rf"%string.
Proof. unfold gpt_rf. case_bool_decide; simpl; intuition. Qed.

(** C7.  When a browser is found and the three blocks of provisioning run
    to their end, whatever each check returns, [set_driver] constructs the
    driver and its result is the constructor's.  The options it passes
    hold the extension of every flagged plugin whose check returned
    [True], and of a flagged plugin whose check returned [False] they hold
    no extension: all that is left of it is the warning in the log. *)
Theorem unavailable_plugin_is_skipped (pf : platform) (hl : bool)
    (bp ua proxy : option string) (cf rf up : bool) (w : world)
    path b1 b2 b3 w1 w2 w3 :
  find_browser pf bp w = (Ret path, w) ->
  block_runs pf cf "turnstilePatch" w b1 w1 ->
  block_runs pf rf "my-fingerprint-chrome" w1 b2 w2 ->
  block_runs pf up "cloudflare_ua_patch" w2 b3 w3 ->
  exists co,
    set_driver pf hl bp ua proxy cf rf up w =
      (match launch pf co (trace w3) with
       | Some e => Raise e
       | None => Ret (mkGuaPage co)
       end,
       {| fs := fs w3; stdin := stdin w3; trace := Launched co :: trace w3 |}) /\
    forall flag available name,
      In (flag, available, name)
         [(cf, b1, "turnstilePatch"); (rf, b2, "my-fingerprint-chrome");
          (up, b3, "cloudflare_ua_patch")]%string ->
      flag = true ->
      if available : bool
      then In (add_extension name) co
      else ~ In (add_extension name) co /\
           In (Logged WARNING (PluginSkipped name)) (trace w3).
Proof.
  intros Hfind H1 H2 H3. eexists. split.
  { exact (set_driver_launches pf hl bp ua proxy cf rf up w path b1 b2 b3 w1 w2 w3
             Hfind H1 H2 H3). }
  pose proof (block_runs_step _ _ _ _ _ _ H2) as S2.
  pose proof (block_runs_step _ _ _ _ _ _ H3) as S3.
  intros flag available name Hin Hflag.
  assert (Hext : forall n, In (add_extension n)
       (base_options pf hl path ua proxy ++ map add_extension
          (attached cf b1 "turnstilePatch" ++ attached rf b2 "my-fingerprint-chrome"
           ++ attached up b3 "cloudflare_ua_patch" ++ gpt_rf pf w3)) <->
       (cf = true /\ b1 = true /\ n = "turnstilePatch"%string) \/
       (rf = true /\ b2 = true /\ n = "my-fingerprint-chrome"%string) \/
       (up = true /\ b3 = true /\ n = "cloudflare_ua_patch"%string) \/
       In n (gpt_rf pf w3)).
  { intros n. rewrite in_app_iff, extension_calls, !in_app_iff, !attached_elements.
    split; [|tauto]. intros [Hb|H]; [|done].
    by apply base_options_no_extension in Hb. }
  destruct Hin as [[= -> -> <-]|[[= -> -> <-]|[[= -> -> <-]|[]]]];
    subst flag; destruct available; rewrite Hext.
  - by left.
  - split.
    + intros [(_ & [=] & _)|[(_ & _ & [=])|[(_ & _ & [=])|Hg]]].
      by apply gpt_rf_elements in Hg.
    + eapply step_ok_trace; [exact S3|]. eapply step_ok_trace; [exact S2|].
      by eapply block_runs_skipped.
  - right. by left.
  - split.
    + intros [(_ & _ & [=])|[(_ & [=] & _)|[(_ & _ & [=])|Hg]]].
      by apply gpt_rf_elements in Hg.
    + eapply step_ok_trace; [exact S3|]. by eapply block_runs_skipped.
  - right. right. by left.
  - split.
    + intros [(_ & _ & [=])|[(_ & _ & [=])|[(_ & [=] & _)|Hg]]].
      by apply gpt_rf_elements in Hg.
    + by eapply block_runs_skipped.
Qed.

(** C9.  When [gpt_rf] is a directory of the working directory: a run of
    [set_driver] that finds a browser and whose three blocks run to their
    end constructs the driver with [gpt_rf] as the last extension, after
    those of the flagged plugins that are available, whatever the three
    flags; and in every run, every browser started is started with
    [gpt_rf] as the last extension, and nothing that is logged or asked is
    about [gpt_rf]. *)
Theorem gpt_rf_loaded_unconditionally (pf : platform) (hl : bool)
    (bp ua proxy : option string) (cf rf up : bool) (w : world) :
  fs w !! resolve pf "gpt_rf" = Some Dir ->
  (forall path b1 b2 b3 w1 w2 w3,
     find_browser pf bp w = (Ret path, w) ->
     block_runs pf cf "turnstilePatch" w b1 w1 ->
     block_runs pf rf "my-fingerprint-chrome" w1 b2 w2 ->
     block_runs pf up "cloudflare_ua_patch" w2 b3 w3 ->
     let co := base_options pf hl path ua proxy
               ++ map add_extension
                    (attached cf b1 "turnstilePatch"
                     ++ attached rf b2 "my-fingerprint-chrome"
                     ++ attached up b3 "cloudflare_ua_patch")
               ++ [add_extension "gpt_rf"] in
     set_driver pf hl bp ua proxy cf rf up w =
     (match launch pf co (trace w3) with
      | Some e => Raise e
      | None => Ret (mkGuaPage co)
      end,
      {| fs := fs w3; stdin := stdin w3; trace := Launched co :: trace w3 |})) /\
  (forall r w',
     set_driver pf hl bp ua proxy cf rf up w = (r, w') ->
     exists new,
       trace w' = new ++ trace w /\
       Forall (fun ev => about ev <> Some "gpt_rf"%string) new /\
       (forall co, In (Launched co) new -> last co = Some (add_extension "gpt_rf")) /\
       (forall d, r = Ret d ->
          In (Launched (options d)) new /\
          last (options d) = Some (add_extension "gpt_rf"))).
Proof.
  intros Hdir. split.
  - intros path b1 b2 b3 w1 w2 w3 Hfind H1 H2 H3. cbv zeta.
    rewrite (set_driver_launches pf hl bp ua proxy cf rf up w path b1 b2 b3 w1 w2 w3
               Hfind H1 H2 H3).
    assert (gpt_rf pf w3 = ["gpt_rf"%string]) as ->.
    { unfold gpt_rf. rewrite bool_decide_eq_true_2; [done|]. exists Dir.
      eapply step_ok_dir; [by eapply block_runs_step|].
      eapply step_ok_dir; [by eapply block_runs_step|].
      eapply step_ok_dir; [by eapply block_runs_step|]. done. }
    by rewrite !map_app, <- !app_assoc.
  - intros r w' Hrun.
    apply set_driver_run in Hrun
      as [(_ & -> & ->) | (path & pre & _ & Hpre & Hkeep & Hrest)].
    { exists []. by repeat split. }
    assert (Habout : Forall (fun ev => about ev <> Some "gpt_rf"%string) pre).
    { eapply Forall_impl; [done|]. intros ev Hev. by apply any_stage_about. }
    assert (Hnl : forall co, ~ In (Launched co) pre).
    { intros co Hin. rewrite Forall_forall in Hpre.
      apply list_elem_of_In in Hin. apply Hpre, any_stage_about in Hin as [_ Hin].
      by eapply Hin. }
    destruct Hrest as [(Htr & e & ->) | (x1 & x2 & x3 & _ & _ & _ & Hco)].
    { exists pre. repeat split; try done. intros co Hin. by apply Hnl in Hin. }
    cbv zeta in Hco. rewrite (Hkeep _ Hdir) in Hco.
    rewrite bool_decide_eq_true_2 in Hco by done.
    destruct Hco as [Htr Hr].
    set (co := base_options pf hl path ua proxy ++
               map add_extension (x1 ++ x2 ++ x3 ++ ["gpt_rf"%string])) in *.
    assert (Hlast : last co = Some (add_extension "gpt_rf")).
    { unfold co. rewrite !map_app, !app_assoc. apply last_snoc. }
    exists (Launched co :: pre). split; [done|].
    split; [by constructor|]. split.
    + intros co' [[= <-]|Hin]; [done | by apply Hnl in Hin].
    + intros d ->. destruct (launch pf co (pre ++ trace w)); [done|].
      injection Hr as ->. simpl. split; [by left | done].
Qed.


(** C5 fails on the code.  On a machine whose server answers the download
    with a web page, and on one whose connection breaks after the first
    chunk, [download_plugin] returns [False] and the archive it wrote is
    still in the working directory. *)
Theorem failed_download_leaves_archive :
  (let pf := linux_box html_page no_archive starts in
   let run := download_plugin pf "turnstilePatch" (on_disk [("/work", Dir)] []) in
   run.1 = Ret false /\
   fs run.2 !! "/work/turnstilePatch.zip" = Some (File "<html></html>")) /\
  (let pf := linux_box cut_off no_archive starts in
   let run := download_plugin pf "turnstilePatch" (on_disk [("/work", Dir)] []) in
   run.1 = Ret false /\
   fs run.2 !! "/work/turnstilePatch.zip" = Some (File "PK")).
Proof. vm_compute. repeat split; reflexivity. Qed.

Lemma present_plugin_needs_no_network_witness :
  let pf := linux_box offline no_archive starts in
  let w := on_disk [("/work/turnstilePatch", Dir)] [] in
  check_and_download_plugin pf "turnstilePatch" w =
  (Ret true, {| fs := fs w; stdin := stdin w;
                trace := Logged INFO (PluginPresent "turnstilePatch") :: trace w |}).
Proof.
  apply (present_plugin_needs_no_network (linux_box offline no_archive starts)
           "turnstilePatch" "/work" (on_disk [("/work/turnstilePatch", Dir)] [])).
  - reflexivity.
  - vm_compute. by eexists.
Defined.

Lemma no_browser_no_launch_witness :
  let pf := linux_box offline no_archive starts in
  let w := on_disk [("/work", Dir)] [] in
  cls no_browser = FileNotFoundError /\
  set_driver pf false None None None true true true w = (Raise no_browser, w).
Proof.
  apply (no_browser_no_launch (linux_box offline no_archive starts)
           false None None None true true true (on_disk [("/work", Dir)] [])).
  - reflexivity.
  - intros path Hin. simpl in Hin.
    repeat (destruct Hin as [<-|Hin]; [vm_compute; reflexivity|]). destruct Hin.
Defined.

Lemma unavailable_plugin_is_skipped_witness :
  let pf := linux_box offline no_archive starts in
  let w := on_disk [("/usr/bin/chromium", File ""); ("/work/cloudflare_ua_patch", Dir)]
             ["n"; "y"]%string in
  let w1 := (load_plugin pf true "turnstilePatch" [] w).2 in
  let w2 := (load_plugin pf true "my-fingerprint-chrome" [] w1).2 in
  let w3 := (load_plugin pf true "cloudflare_ua_patch" [] w2).2 in
  exists co,
    set_driver pf false None None None true true true w =
      (match launch pf co (trace w3) with
       | Some e => Raise e
       | None => Ret (mkGuaPage co)
       end,
       {| fs := fs w3; stdin := stdin w3; trace := Launched co :: trace w3 |}) /\
    forall flag available name,
      In (flag, available, name)
         [(true, false, "turnstilePatch"); (true, false, "my-fingerprint-chrome");
          (true, true, "cloudflare_ua_patch")]%string ->
      flag = true ->
      if available : bool
      then In (add_extension name) co
      else ~ In (add_extension name) co /\
           In (Logged WARNING (PluginSkipped name)) (trace w3).
Proof.
  intros pf w w1 w2 w3.
  apply (unavailable_plugin_is_skipped pf false None None None true true true w
           "/usr/bin/chromium" false false true w1 w2 w3).
  - vm_compute. reflexivity.
  - eexists. split; vm_compute; reflexivity.
  - eexists. split; vm_compute; reflexivity.
  - eexists. split; vm_compute; reflexivity.
Defined.

Lemma gpt_rf_loaded_unconditionally_witness :
  let pf := linux_box offline no_archive starts in
  let w := on_disk [("/work/gpt_rf", Dir); ("/usr/bin/chromium", File "")] ["no"]%string in
  let w1 := (load_plugin pf true "turnstilePatch" [] w).2 in
  let co := base_options pf false "/usr/bin/chromium" None None
            ++ map add_extension
                 (attached true false "turnstilePatch"
                  ++ attached false false "my-fingerprint-chrome"
                  ++ attached false false "cloudflare_ua_patch")
            ++ [add_extension "gpt_rf"] in
  set_driver pf false None None None true false false w =
  (match launch pf co (trace w1) with
   | Some e => Raise e
   | None => Ret (mkGuaPage co)
   end,
   {| fs := fs w1; stdin := stdin w1; trace := Launched co :: trace w1 |}).
Proof.
  intros pf w w1.
  apply (proj1 (gpt_rf_loaded_unconditionally pf false None None None true false false w
                  ltac:(vm_compute; reflexivity))
           "/usr/bin/chromium" false false false w1 w1 w1).
  - vm_compute. reflexivity.
  - eexists. split; vm_compute; reflexivity.
  - reflexivity.
  - reflexivity.
Defined.


End ConfigFacts.

(** * Further properties *)

Module RetryExtra.
Import Retry RetryFacts.

Section Runs.
Context {N : Type} (num : Number N) {St A : Type}.
Variable methods : exception_methods.
Variable random : nat -> N.
Variables (retries : Z) (delay backoff jitter : N).
Variable func : St -> result A * St.

Local Abbreviation wrapper := (wrapper num methods random retries delay backoff jitter).

(** X1.  With [retries] zero or negative the loop body never runs: the
    wrapped function is not called, nothing is logged or slept, and the
    decorated function raises [RuntimeError]. *)
Theorem no_attempts_allowed func_call_str s h :
  (retries <= 0)%Z ->
  wrapper (Ret func_call_str) func s h =
  (Raise (mkExn RuntimeError ("函数 " ++ func_call_str ++ " 重试耗尽，但未捕获到异常")),
   (s, h)).
Proof.
  intros Hr. unfold Retry.wrapper.
  replace (Z.to_nat retries) with 0%nat by lia. reflexivity.
Qed.

(** X2.  A run of the decorated function calls the wrapped function at most
    [retries] times.  [time.sleep] is called at most once after each call,
    and fewer than [retries] times in all: never after the last attempt
    allowed.  Every sleep that returns is followed by another call, so that
    a function that is called at all is called once more than [time.sleep]
    returns. *)
Theorem attempts_and_sleeps_bounded func_call_str s h :
  exists new,
    events (wrapper func_call_str func s h).2.2 = new ++ events h /\
    (length (outcomes_of new) <= Z.to_nat retries)%nat /\
    (new = [] \/ length (outcomes_of new) = S (length (sleeps_of new))) /\
    (length (sleep_calls_of new) <= length (outcomes_of new))%nat /\
    (Z.of_nat (length (sleep_calls_of new)) < Z.max retries 1)%Z.
Proof.
  destruct (wrapper func_call_str func s h) as [r [s' h']] eqn:Hrun.
  apply wrapper_sleeps in Hrun as (new & Hnew & Hle & Hcnt & Hcalls & Hlt & _).
  by exists new.
Qed.

(** X4.  What the decorated function returns is what a call of the wrapped
    function returned, and the wrapped function's state is as that call
    left it. *)
Theorem returned_value_is_the_functions func_call_str s h v s' h' :
  wrapper func_call_str func s h = (Ret v, (s', h')) ->
  exists s0, func s0 = (Ret v, s').
Proof.
  unfold Retry.wrapper. destruct func_call_str as [fcs|e]; [|done].
  intros Hrun. apply attempts_calls in Hrun as (new & _ & Hrun).
  destruct Hrun as [(_ & _ & Hr & _)|(es & o & _ & _ & _ & Hv & _)].
  - unfold exhausted in Hr. done.
  - by apply Hv.
Qed.

(** X3.  The calls of a run are a series of fewer than [retries] calls that
    each raised an [Exception], followed by one last call.  The decorated
    function returns exactly when that last call returned, and an exception
    of the last call that [except Exception] does not catch is raised as it
    is: a retry only ever follows an [Exception] that was caught. *)
Theorem retries_only_follow_exceptions func_call_str s h r s' h' :
  (1 <= retries)%Z ->
  wrapper (Ret func_call_str) func s h = (r, (s', h')) ->
  exists new es o,
    events h' = new ++ events h /\
    outcomes_of new = map Some es ++ [o] /\
    Forall (fun e => is_Exception e = true) es /\
    (length es < Z.to_nat retries)%nat /\
    (o = None <-> exists v, r = Ret v) /\
    (forall e, o = Some e -> is_Exception e = false -> r = Raise e).
Proof.
  intros Hn Hrun. unfold Retry.wrapper in Hrun.
  apply attempts_calls in Hrun as (new & Hnew & Hrun).
  destruct Hrun as [(Hz & _)|(es & o & Hout & Hes & Hlen & Hv & Ho & Hb)]; [lia|].
  exists new, es, o. repeat split; try done.
  intros [v Hr]. by apply Hv in Hr as [-> _].
Qed.
End Runs.

Lemma no_attempts_allowed_witness :
  wrapper exact plain (fun _ => 1 # 2)%Q 0 2%Q 1%Q (1 # 10)%Q (Ret "f()") always_fails tt fresh =
  (Raise (mkExn RuntimeError ("函数 " ++ "f()" ++ " 重试耗尽，但未捕获到异常")),
   (tt, fresh)).
Proof.
  apply (no_attempts_allowed exact plain (fun _ => 1 # 2)%Q 0 2%Q 1%Q (1 # 10)%Q
           always_fails "f()" tt fresh).
  lia.
Defined.

Lemma returned_value_is_the_functions_witness :
  exists s0, flaky s0 = (Ret 1%nat, 2%nat).
Proof.
  apply (returned_value_is_the_functions exact plain
           (fun _ => 1 # 2)%Q 3 2%Q 1%Q (1 # 10)%Q flaky (Ret "f()") 0%nat fresh 1%nat 2%nat
           (wrapper exact plain (fun _ => 1 # 2)%Q 3 2%Q 1%Q (1 # 10)%Q (Ret "f()")
              flaky 0%nat fresh).2.2).
  vm_compute. reflexivity.
Defined.

Lemma retries_only_follow_exceptions_witness :
  exists new es o,
    events (wrapper exact plain (fun _ => 1 # 2)%Q 3 2%Q 1%Q (1 # 10)%Q (Ret "f()")
              flaky 0%nat fresh).2.2
      = new ++ events fresh /\
    outcomes_of new = map Some es ++ [o] /\
    Forall (fun e => is_Exception e = true) es /\
    (length es < Z.to_nat 3)%nat /\
    (o = None <-> exists v, Ret 1%nat = Ret v) /\
    (forall e, o = Some e -> is_Exception e = false -> Ret 1%nat = @Raise nat e).
Proof.
  apply (retries_only_follow_exceptions exact plain
           (fun _ => 1 # 2)%Q 3 2%Q 1%Q (1 # 10)%Q flaky "f()")
    with (s := 0%nat) (h := fresh) (s' := 2%nat).
  - lia.
  - vm_compute. reflexivity.
Defined.

End RetryExtra.

Module FacadeExtra.
Import Retry Facade RetryFacts FacadeFacts.

(** X5.  An interaction method makes at most 3 attempts ([click], [input])
    or 5 (the action-chain ones), sleeps at most once less, and each sleep
    lasts between 3 and 3.3 seconds. *)
Theorem waits_between_attempts (drv : driver) (random : nat -> Q)
    (signature : result string) (i : interaction) p h :
  (forall n, 0 <= random n < 1)%Q ->
  exists hnew,
    events (run drv random signature i (p, h)).2.2 = hnew ++ events h /\
    length (outcomes_of hnew) <= retries_of i /\
    length (sleeps_of hnew) <= retries_of i - 1 /\
    Forall (fun secs => 3 <= secs <= 33 # 10)%Q (sleeps_of hnew).
Proof.
  intros Hrand. rewrite run_unfold.
  destruct (wrapper _ _ _ _ _ _ _ _ _ p h) as [r [p' h']] eqn:Hrun.
  apply wrapper_sleeps in Hrun as (new & Hnew & Hle & Hcnt & _ & _ & Hsl).
  exists new. split; [done|]. rewrite Nat2Z.id in Hle. split; [done|]. split.
  - destruct Hcnt as [->|Hcnt]; simpl; lia.
  - apply Forall_lookup. intros k secs Hk. apply Hsl in Hk as [Hk _].
    destruct (facade_delay random Hrand k (draws h + k)) as (x & Hx & _ & Hb).
    rewrite Hk in Hx. by injection Hx as ->.
Qed.

Lemma waits_between_attempts_witness :
  exists hnew,
    events (run slow_start (fun _ => 1 # 2)%Q (Ret "page, '#go'")
              (click "#go" None 10) ([], fresh)).2.2 = hnew ++ events fresh /\
    length (outcomes_of hnew) <= retries_of (click "#go" None 10) /\
    length (sleeps_of hnew) <= retries_of (click "#go" None 10) - 1 /\
    Forall (fun secs => 3 <= secs <= 33 # 10)%Q (sleeps_of hnew).
Proof.
  apply (waits_between_attempts slow_start (fun _ => 1 # 2)%Q (Ret "page, '#go'"%string)
           (click "#go" None 10) [] fresh).
  intros n. lra.
Defined.

End FacadeExtra.

Module ConfigExtra.
Import Config ConfigFacts.

Lemma logfile_log_app (a b : list event) w w' :
  trace w' = a ++ b -> trace w = b ->
  logfile_log w' = logfile_log w ++
    omap (fun ev => match ev with Logged lv m => Some (lv, m) | _ => None end) (rev a).
Proof.
  intros Hw' Hw. unfold logfile_log. by rewrite Hw', Hw, rev_app_distr, omap_app.
Qed.

Lemma reprompts_comm (c : list event) n :
  c ++ concat (replicate n c) = concat (replicate n c) ++ c.
Proof.
  induction n as [|n IH]; simpl; [by rewrite app_nil_r|].
  by rewrite <- app_assoc, <- IH.
Qed.

Lemma reprompts_log name n :
  omap (fun ev => match ev with Logged lv m => Some (lv, m) | _ => None end)
       (rev (concat (replicate n [Printed; Prompted name]))) = [].
Proof.
  induction n as [|n IH]; [done|]. cbn [replicate concat].
  by rewrite rev_app_distr, omap_app, IH.
Qed.

Section Provisioning.
Variable pf : platform.

(** X6.  A plugin that is neither on disk nor in [PLUGIN_URLS] is refused
    at once: [False], no prompt, no request, nothing read from standard
    input; two records are written to the log, and no other file is
    touched. *)
Theorem unknown_plugin_is_refused name cwd w :
  getcwd pf = Ret cwd ->
  fs w !! resolve pf (os_path_join pf cwd name) = None ->
  PLUGIN_URLS !! name = None ->
  let w' := {| fs := fs w; stdin := stdin w;
               trace := Logged ERROR (NoDownloadUrl name)
                        :: Logged WARNING (PluginMissing name) :: trace w |} in
  check_and_download_plugin pf name w = (Ret false, w') /\
  logfile_log w' =
    logfile_log w ++ [(WARNING, PluginMissing name); (ERROR, NoDownloadUrl name)].
Proof.
  intros Hcwd Hfs Hurl. cbv zeta. split.
  - unfold check_and_download_plugin, os_path_exists, mbind, M_bind, lift.
    rewrite Hcwd. rewrite bool_decide_eq_false_2 by (rewrite Hfs; by intros [? ?]).
    cbn beta iota. unfold logger, record. cbn beta iota.
    by rewrite bool_decide_eq_true_2.
  - by rewrite (logfile_log_app [Logged ERROR (NoDownloadUrl name);
                                 Logged WARNING (PluginMissing name)] (trace w) w).
Qed.

Lemma ask_cons name line rest w :
  stdout_error pf (Prompted name :: trace w) = None ->
  ask pf name (Ret line :: rest) w =
  let w1 := {| fs := fs w; stdin := rest; trace := Prompted name :: trace w |} in
  if says_yes line then download_plugin pf name w1
  else if says_no line
  then (Ret false, {| fs := fs w; stdin := rest;
                      trace := Logged INFO (UserDeclined name)
                               :: Prompted name :: trace w |})
  else ask pf name rest {| fs := fs w; stdin := rest;
                           trace := Printed :: Prompted name :: trace w |}.
Proof.
  intros Hout. cbn [ask].
  unfold says_yes, says_no, mbind, M_bind, record, lift, print_.
  cbn beta iota zeta. cbn [trace].
  destruct (str_in (lower (strip line)) ["y"; "yes"; "是"]%string); [done|].
  destruct (str_in (lower (strip line)) ["n"; "no"; "否"]%string); [done|].
  cbn [trace fs stdin]. by rewrite Hout.
Qed.

Lemma ask_declined name bad answer rest :
  (forall t, stdout_error pf t = None) ->
  Forall (fun line => says_yes line = false /\ says_no line = false) bad ->
  says_yes answer = false -> says_no answer = true ->
  forall w,
  ask pf name (map Ret bad ++ Ret answer :: rest) w =
  (Ret false, {| fs := fs w; stdin := rest;
                 trace := Logged INFO (UserDeclined name) :: Prompted name
                          :: concat (replicate (length bad) [Printed; Prompted name])
                          ++ trace w |}).
Proof.
  intros Hout Hbad Hyes Hno. induction Hbad as [|line bad [Hy Hn] _ IH]; intros w.
  - cbn [app map]. rewrite ask_cons by done. cbv zeta. by rewrite Hyes, Hno.
  - cbn [app map]. rewrite ask_cons by done. cbv zeta. rewrite Hy, Hn, IH.
    cbn [fs stdin trace length replicate concat]. do 3 f_equal.
    rewrite <- (app_assoc [Printed; Prompted name]).
    change (Printed :: Prompted name :: trace w)
      with ([Printed; Prompted name] ++ trace w).
    by rewrite app_assoc, <- reprompts_comm, <- !app_assoc.
Qed.

(** X7.  When the plugin is missing but has a URL and [print] works, each
    line typed that is neither a yes nor a no is answered by a reminder and
    a new prompt; at the first no the call returns [False], having read
    the lines up to that answer and made no request.  Two records are
    written to the log, and no other file is touched. *)
Theorem declined_download name cwd bad answer rest w :
  getcwd pf = Ret cwd ->
  (forall t, stdout_error pf t = None) ->
  fs w !! resolve pf (os_path_join pf cwd name) = None ->
  is_Some (PLUGIN_URLS !! name) ->
  Forall (fun line => says_yes line = false /\ says_no line = false) bad ->
  says_yes answer = false -> says_no answer = true ->
  stdin w = map Ret bad ++ Ret answer :: rest ->
  let w' := {| fs := fs w; stdin := rest;
               trace := Logged INFO (UserDeclined name) :: Prompted name
                        :: concat (replicate (length bad) [Printed; Prompted name])
                        ++ Logged WARNING (PluginMissing name) :: trace w |} in
  check_and_download_plugin pf name w = (Ret false, w') /\
  logfile_log w' =
    logfile_log w ++ [(WARNING, PluginMissing name); (INFO, UserDeclined name)].
Proof.
  intros Hcwd Hout Hfs [url Hurl] Hbad Hyes Hno Hin. cbv zeta. split.
  - unfold check_and_download_plugin, os_path_exists, mbind, M_bind, lift.
    rewrite Hcwd. rewrite bool_decide_eq_false_2 by (rewrite Hfs; by intros [? ?]).
    cbn beta iota. unfold logger, record. cbn beta iota.
    rewrite bool_decide_eq_false_2 by (by rewrite Hurl).
    cbn [stdin]. rewrite Hin. by rewrite ask_declined.
  - rewrite (logfile_log_app
               (Logged INFO (UserDeclined name) :: Prompted name
                :: concat (replicate (length bad) [Printed; Prompted name])
                ++ [Logged WARNING (PluginMissing name)]) (trace w) w); try done.
    + f_equal. cbn [rev]. rewrite rev_app_distr, !omap_app, reprompts_log. done.
    + cbn [trace app]. by rewrite <- app_assoc.
Qed.

Lemma ask_eof name lines :
  (forall t, stdout_error pf t = None) ->
  Forall (fun line => says_yes line = false /\ says_no line = false) lines ->
  forall w,
  ask pf name (map Ret lines) w =
  (Raise (mkExn EOFError "EOF when reading a line"),
   {| fs := fs w; stdin := match lines with [] => stdin w | _ => [] end;
      trace := Prompted name
               :: concat (replicate (length lines) [Printed; Prompted name])
               ++ trace w |}).
Proof.
  intros Hout. induction 1 as [|line rest [Hy Hn] _ IH]; intros w.
  - cbn [ask map]. unfold mbind, M_bind, record, raise. by cbn beta iota.
  - cbn [map]. rewrite ask_cons by done. cbv zeta. rewrite Hy, Hn, IH.
    cbn [fs stdin trace length replicate concat]. do 2 f_equal.
    + f_equal. by destruct rest.
    + f_equal. rewrite <- (app_assoc [Printed; Prompted name]).
      change (Printed :: Prompted name :: trace w)
        with ([Printed; Prompted name] ++ trace w).
      by rewrite app_assoc, <- reprompts_comm, <- !app_assoc.
Qed.

(** X8.  When the plugin is missing but has a URL, [print] works and
    standard input ends before a yes or a no was typed, the prompt loop
    ends with the [EOFError] of [input()]: the caller gets an exception,
    not [False], and no request was made.  One record is written to the
    log, and no other file is touched. *)
Theorem prompt_at_end_of_input name cwd lines w :
  getcwd pf = Ret cwd ->
  (forall t, stdout_error pf t = None) ->
  fs w !! resolve pf (os_path_join pf cwd name) = None ->
  is_Some (PLUGIN_URLS !! name) ->
  stdin w = map Ret lines ->
  Forall (fun line => says_yes line = false /\ says_no line = false) lines ->
  let w' := {| fs := fs w; stdin := [];
               trace := Prompted name
                        :: concat (replicate (length lines) [Printed; Prompted name])
                        ++ Logged WARNING (PluginMissing name) :: trace w |} in
  check_and_download_plugin pf name w =
    (Raise (mkExn EOFError "EOF when reading a line"), w') /\
  logfile_log w' = logfile_log w ++ [(WARNING, PluginMissing name)].
Proof.
  intros Hcwd Hout Hfs [url Hurl] Hin Hbad. cbv zeta. split.
  - unfold check_and_download_plugin, os_path_exists, mbind, M_bind, lift.
    rewrite Hcwd. rewrite bool_decide_eq_false_2 by (rewrite Hfs; by intros [? ?]).
    cbn beta iota. unfold logger, record. cbn beta iota.
    rewrite bool_decide_eq_false_2 by (by rewrite Hurl).
    cbn [stdin]. rewrite Hin, ask_eof by done. cbn [stdin fs trace].
    by destruct lines.
  - rewrite (logfile_log_app
               (Prompted name
                :: concat (replicate (length lines) [Printed; Prompted name])
                ++ [Logged WARNING (PluginMissing name)]) (trace w) w); try done.
    + f_equal. cbn [rev]. rewrite rev_app_distr, !omap_app, reprompts_log. done.
    + cbn [trace app]. by rewrite <- app_assoc.
Qed.


Lemma handler_false name e (w1 w' : world) (r : result bool) :
  match (if is_RequestException e
         then Some (logger ERROR (DownloadFailed name e);; mret false)
         else if is_BadZipFile e
         then Some (logger ERROR (UnzipFailed name e);; mret false)
         else if is_Exception e
         then Some (logger ERROR (InstallFailed name e);; mret false)
         else None) with
  | Some h => h w1
  | None => (Raise e, w1)
  end = (r, w') ->
  (is_Exception e = true /\ r = Ret false /\ fs w' = fs w1 /\ stdin w' = stdin w1 /\
   trace w' = Logged ERROR (failure_log name e) :: trace w1)
  \/ (is_Exception e = false /\ r = Raise e /\ w' = w1).
Proof.
  unfold failure_log, is_RequestException, is_BadZipFile, is_Exception,
    mbind, M_bind, logger, record.
  destruct (cls e); intros [= <- <-];
    ((left; by repeat split) || (right; by repeat split)).
Qed.

(** X10.  [download_plugin] returns [True] only when, at the end, the
    plugin's directory exists and the archive has been removed. *)
Theorem installed_means_on_disk name w w' :
  download_plugin pf name w = (Ret true, w') ->
  exists cwd,
    getcwd pf = Ret cwd /\
    is_Some (fs w' !! resolve pf (os_path_join pf cwd name)) /\
    fs w' !! resolve pf (name ++ ".zip") = None.
Proof.
  unfold download_plugin, try_except.
  match goal with |- context [match ?b w with _ => _ end] =>
    destruct (b w) as [[ok|e] w1] eqn:Hbody end; cycle 1.
  { intros H. by apply handler_false in H as [(_ & [=] & _) | (_ & [=] & _)]. }
  intros [= -> ->]. unfold url_of in Hbody.
  destruct (PLUGIN_URLS !! name) as [url|]; [|done].
  apply bind_inv in Hbody as [(url' & w0 & [= <- <-] & Hbody)|(? & [=] & _)].
  apply bind_inv in Hbody as [([] & w2 & _ & Hbody)|(? & _ & [=])].
  apply bind_inv in Hbody as [(resp & w3 & _ & Hbody)|(? & _ & [=])].
  apply bind_inv in Hbody as [([] & w4 & _ & Hbody)|(? & _ & [=])].
  apply bind_inv in Hbody as [([] & w5 & _ & Hbody)|(? & _ & [=])].
  apply bind_inv in Hbody as [([] & w6 & _ & Hbody)|(? & _ & [=])].
  apply bind_inv in Hbody as [([] & w7 & _ & Hbody)|(? & _ & [=])].
  apply bind_inv in Hbody as [([] & w8 & _ & Hbody)|(? & _ & [=])].
  apply bind_inv in Hbody as [([] & w9 & Hrm & Hbody)|(? & _ & [=])].
  apply bind_inv in Hbody as [(cwd & w10 & [= Hcwd <-] & Hbody)|(? & _ & [=])].
  apply bind_inv in Hbody as [(found & w11 & [= <- <-] & Hbody)|(? & [=] & _)].
  case_bool_decide as Hfound; [|done]. injection Hbody as <-. simpl.
  exists cwd. split; [done|]. split; [done|]. unfold os_remove in Hrm.
  destruct (fs w8 !! resolve pf (name ++ ".zip")) as [[|c]|]; try done.
  injection Hrm as <-. simpl. apply lookup_delete_eq.
Qed.

(** X11.  When the request fails, be it that [requests.get] raises or that
    the response has an error status, [download_plugin] returns [False]
    and has read no input; it has written two records to the log and
    touched no other file. *)
Theorem failed_request_touches_nothing name url e w :
  PLUGIN_URLS !! name = Some url ->
  is_Exception e = true ->
  let history := Logged INFO (DownloadStarts name url) :: trace w in
  (requests_get pf url history = Raise e \/
   exists resp, requests_get pf url history = Ret resp /\ status_error resp = Some e) ->
  let w' := {| fs := fs w; stdin := stdin w;
               trace := Logged ERROR (failure_log name e)
                        :: HttpGet url :: history |} in
  download_plugin pf name w = (Ret false, w') /\
  logfile_log w' =
    logfile_log w ++ [(INFO, DownloadStarts name url); (ERROR, failure_log name e)].
Proof.
  intros Hurl He history Hget. subst history. cbv zeta. split; cycle 1.
  { by rewrite (logfile_log_app [Logged ERROR (failure_log name e); HttpGet url;
                                 Logged INFO (DownloadStarts name url)] (trace w) w). }
  unfold download_plugin, try_except, url_of. rewrite Hurl.
  unfold mbind, M_bind, mret, M_ret, get, logger, record, raise_for_status.
  cbn beta iota. cbn [trace fs stdin].
  assert (Hlog : forall w1 : world,
    match (if is_RequestException e
           then Some (fun s : world =>
                  (Ret false, {| fs := fs s; stdin := stdin s;
                     trace := Logged ERROR (DownloadFailed name e) :: trace s |}))
           else if is_BadZipFile e
           then Some (fun s : world =>
                  (Ret false, {| fs := fs s; stdin := stdin s;
                     trace := Logged ERROR (UnzipFailed name e) :: trace s |}))
           else if is_Exception e
           then Some (fun s : world =>
                  (Ret false, {| fs := fs s; stdin := stdin s;
                     trace := Logged ERROR (InstallFailed name e) :: trace s |}))
           else None) with
    | Some h => h w1
    | None => (Raise e, w1)
    end = (Ret false, {| fs := fs w1; stdin := stdin w1;
                         trace := Logged ERROR (failure_log name e) :: trace w1 |})).
  { intros w1. unfold failure_log. rewrite He.
    destruct (is_RequestException e); [done|]. by destruct (is_BadZipFile e). }
  destruct Hget as [-> | (resp & -> & Hst)].
  - apply Hlog.
  - cbn beta iota. rewrite Hst. unfold raise. apply Hlog.
Qed.
End Provisioning.

Section Launching.
Variable pf : platform.

Lemma picked_cases pre flag name x : picked pre flag name x -> x = [] \/ x = [name].
Proof. intros [(-> & _) | (-> & _)]; auto. Qed.

Lemma stage_requests ev url :
  any_stage ev -> ev = HttpGet url ->
  exists name, In name plugin_names /\ PLUGIN_URLS !! name = Some url.
Proof.
  intros (name & Hname & Hev) Heq. subst ev.
  destruct Hev as [Hev|Hev]; [by exists name | done].
Qed.

(** Where the launches of a run are, and what they are made of. *)
Lemma launches_of_run hl bp ua proxy cf rf up w r w' :
  set_driver pf hl bp ua proxy cf rf up w = (r, w') ->
  exists new,
    trace w' = new ++ trace w /\
    (forall url, In (HttpGet url) new ->
       exists name, In name plugin_names /\ PLUGIN_URLS !! name = Some url) /\
    (forall k, fs w !! k = Some Dir -> fs w' !! k = Some Dir) /\
    (forall co, In (Launched co) new ->
       exists path exts,
         find_browser pf bp w = (Ret path, w) /\
         co = base_options pf hl path ua proxy ++ map add_extension exts /\
         sublist exts loadable) /\
    (forall d, r = Ret d -> In (Launched (options d)) new).
Proof.
  intros Hrun.
  apply set_driver_run in Hrun
    as [(_ & -> & ->) | (path & pre & Hfind & Hpre & Hkeep & Hrest)].
  { exists []. by repeat split. }
  assert (Hget : forall url, In (HttpGet url) pre ->
            exists name, In name plugin_names /\ PLUGIN_URLS !! name = Some url).
  { intros url Hin. rewrite Forall_forall in Hpre.
    apply list_elem_of_In in Hin. by eapply stage_requests; [apply Hpre|]. }
  assert (Hnl : forall co, ~ In (Launched co) pre).
  { intros co Hin. rewrite Forall_forall in Hpre.
    apply list_elem_of_In in Hin. apply Hpre, any_stage_about in Hin as [_ Hin].
    by eapply Hin. }
  destruct Hrest as [(Htr & e & ->) | (x1 & x2 & x3 & P1 & P2 & P3 & Hco)].
  { exists pre. repeat split; try done. intros co Hin. by apply Hnl in Hin. }
  cbv zeta in Hco. destruct Hco as [Htr Hr].
  match type of Htr with _ = Launched ?c :: _ => set (co := c) in * end.
  exists (Launched co :: pre). split; [done|]. split.
  { intros url [[=]|Hin]. by apply Hget. }
  split; [done|]. split.
  - intros co' [[= <-]|Hin]; [|by apply Hnl in Hin].
    eexists path, _. split; [done|]. split; [reflexivity|].
    apply picked_cases in P1 as [-> | ->], P2 as [-> | ->], P3 as [-> | ->];
      case_bool_decide; unfold loadable; simpl;
      solve [repeat first [apply sublist_nil | apply sublist_skip | apply sublist_cons]].
  - intros d ->. destruct (launch pf co (pre ++ trace w)); [done|].
    injection Hr as ->. by left.
Qed.

(** X12.  Every HTTP request a run of [set_driver] makes goes to the URL
    that [PLUGIN_URLS] gives for one of the three plugins. *)
Theorem requests_only_to_configured_urls hl bp ua proxy cf rf up w r w' :
  set_driver pf hl bp ua proxy cf rf up w = (r, w') ->
  exists new,
    trace w' = new ++ trace w /\
    forall url, In (HttpGet url) new ->
      exists name, In name plugin_names /\ PLUGIN_URLS !! name = Some url.
Proof.
  intros Hrun. apply launches_of_run in Hrun as (new & Htr & Hget & _).
  by exists new.
Qed.

(** X15.  The options of every launch are the base options followed by
    extensions only, which are some of [turnstilePatch],
    [my-fingerprint-chrome], [cloudflare_ua_patch] and [gpt_rf], in this
    order and each at most once. *)
Theorem launch_options_shape hl bp ua proxy cf rf up w r w' :
  set_driver pf hl bp ua proxy cf rf up w = (r, w') ->
  exists new,
    trace w' = new ++ trace w /\
    (forall co, In (Launched co) new ->
       exists path exts,
         co = base_options pf hl path ua proxy ++ map add_extension exts /\
         sublist exts loadable) /\
    (forall d, r = Ret d -> In (Launched (options d)) new).
Proof.
  intros Hrun. apply launches_of_run in Hrun as (new & Htr & _ & _ & Hl & Hd).
  exists new. split; [done|]. split; [|done].
  intros co Hin. destruct (Hl co Hin) as (path & exts & _ & Hco & Hsub).
  by exists path, exts.
Qed.

(** X18.  A run of [set_driver] removes no directory: whatever was a
    directory before is one afterwards. *)
Theorem directories_survive hl bp ua proxy cf rf up w r w' k :
  set_driver pf hl bp ua proxy cf rf up w = (r, w') ->
  fs w !! k = Some Dir -> fs w' !! k = Some Dir.
Proof.
  intros Hrun. apply launches_of_run in Hrun as (new & _ & _ & Hkeep & _).
  apply Hkeep.
Qed.

Lemma first_existing_first paths w :
  forall path w', first_existing pf paths w = (Ret (Some path), w') ->
  exists before after,
    paths = before ++ path :: after /\
    Forall (fun p => fs w !! resolve pf p = None) before /\
    is_Some (fs w !! resolve pf path).
Proof.
  induction paths as [|p rest IH]; intros path w' Hrun; [done|].
  cbn [first_existing] in Hrun. unfold mbind, M_bind, os_path_exists in Hrun.
  case_bool_decide as Hex.
  - injection Hrun as <- <-. exists [], rest. by repeat split.
  - apply IH in Hrun as (before & after & -> & Hb & Hp).
    exists (p :: before), after. split; [done|]. split; [|done].
    constructor; [by apply eq_None_not_Some | done].
Qed.

Lemma base_options_head hl path ua proxy exts :
  head (base_options pf hl path ua proxy ++ map add_extension exts)
  = Some (set_paths path).
Proof. reflexivity. Qed.

(** X14.  With no browser path passed, the browser every launch is given is
    the first candidate of the platform's list that exists. *)
Theorem first_candidate_on_disk_is_used hl bp ua proxy cf rf up w r w' :
  truthy bp = false ->
  set_driver pf hl bp ua proxy cf rf up w = (r, w') ->
  exists new,
    trace w' = new ++ trace w /\
    forall co, In (Launched co) new ->
      exists path before after,
        head co = Some (set_paths path) /\
        default_paths pf = before ++ path :: after /\
        Forall (fun p => fs w !! resolve pf p = None) before /\
        is_Some (fs w !! resolve pf path).
Proof.
  intros Hbp Hrun. apply launches_of_run in Hrun as (new & Htr & _ & _ & Hl & _).
  exists new. split; [done|]. intros co Hin.
  destruct (Hl co Hin) as (path & exts & Hfind & -> & _).
  exists path. unfold find_browser in Hfind. rewrite Hbp in Hfind.
  cbn [negb] in Hfind.
  apply bind_inv in Hfind as [(found & w0 & Hfirst & Hfind)|(? & _ & [=])].
  destruct found as [p|].
  - apply first_existing_first in Hfirst as (before & after & Hd & Hb & Hp).
    destruct (negb (truthy (Some p))); [done|]. injection Hfind as <- _.
    exists before, after. by rewrite base_options_head.
  - by rewrite Hbp in Hfind.
Qed.

(** X13.  A browser path passed by the caller, if not empty, is used as it
    is, whether or not anything exists at that path: it is what the
    resolution of the browser path returns, and every browser started is
    given it. *)
Theorem given_browser_path_is_used hl path ua proxy cf rf up w r w' :
  path <> ""%string ->
  set_driver pf hl (Some path) ua proxy cf rf up w = (r, w') ->
  find_browser pf (Some path) w = (Ret path, w) /\
  exists new,
    trace w' = new ++ trace w /\
    forall co, In (Launched co) new -> head co = Some (set_paths path).
Proof.
  intros Hne Hrun.
  assert (Hfind : find_browser pf (Some path) w = (Ret path, w)).
  { unfold find_browser, truthy.
    by rewrite (proj2 (String.eqb_neq path "")). }
  split; [done|].
  apply launches_of_run in Hrun as (new & Htr & _ & _ & Hl & _).
  exists new. split; [done|]. intros co Hin.
  destruct (Hl co Hin) as (path' & exts & Hfind' & -> & _).
  rewrite Hfind in Hfind'. injection Hfind' as <-. apply base_options_head.
Qed.

Lemma base_options_sandbox hl path ua proxy :
  (In (set_argument "--no-sandbox") (base_options pf hl path ua proxy)
   <-> is_admin pf = true) /\
  (In (set_argument "--disable-gpu") (base_options pf hl path ua proxy)
   <-> is_admin pf = true /\ is_windows pf = false).
Proof.
  unfold base_options. rewrite !in_app_iff.
  destruct (is_admin pf), (is_windows pf), proxy as [p|], ua as [u|];
    try destruct (truthy (Some p)); try destruct (truthy (Some u));
    simpl; intuition congruence.
Qed.

Lemma base_options_proxy hl path ua proxy p :
  In (set_proxy p) (base_options pf hl path ua proxy)
  <-> proxy = Some p /\ p <> ""%string.
Proof.
  unfold base_options, truthy. rewrite !in_app_iff.
  destruct (is_admin pf), (is_windows pf), proxy as [p0|], ua as [u|];
    try destruct (String.eqb_spec p0 ""); try destruct (String.eqb u "");
    simpl; intuition congruence.
Qed.

Lemma base_options_given_agent hl path u0 proxy u :
  u0 <> ""%string ->
  In (set_user_agent u) (base_options pf hl path (Some u0) proxy) <-> u = u0.
Proof.
  intros Hne. unfold base_options, truthy. rewrite !in_app_iff.
  rewrite (proj2 (String.eqb_neq u0 "")) by done.
  destruct (is_admin pf), (is_windows pf), proxy as [p0|];
    try destruct (String.eqb p0 ""); simpl; intuition congruence.
Qed.

Lemma not_an_extension (c : option_call) exts :
  (forall n, c <> add_extension n) -> ~ In c (map add_extension exts).
Proof. intros Hc Hin. apply in_map_iff in Hin as (n & <- & _). by eapply Hc. Qed.

(** X16.  The sandbox is switched off exactly when the process is
    privileged, and the GPU exactly when it is privileged and not on
    Windows: every launch has [--no-sandbox] if and only if the privilege
    probe says so, and [--disable-gpu] if and only if it does so off
    Windows. *)
Theorem sandbox_off_iff_privileged hl bp ua proxy cf rf up w r w' :
  set_driver pf hl bp ua proxy cf rf up w = (r, w') ->
  exists new,
    trace w' = new ++ trace w /\
    forall co, In (Launched co) new ->
      (In (set_argument "--no-sandbox") co <-> is_admin pf = true) /\
      (In (set_argument "--disable-gpu") co
       <-> is_admin pf = true /\ is_windows pf = false).
Proof.
  intros Hrun. apply launches_of_run in Hrun as (new & Htr & _ & _ & Hl & _).
  exists new. split; [done|]. intros co Hin.
  destruct (Hl co Hin) as (path & exts & _ & -> & _).
  destruct (base_options_sandbox hl path ua proxy) as [H1 H2].
  rewrite !in_app_iff, H1, H2.
  split; (split; [intros [H|H]; [done | by apply not_an_extension in H] | by left]).
Qed.

(** X19.  A proxy is set in a launch exactly when a non-empty one was
    passed, and with a non-empty user agent passed, that one is the only
    user agent a launch sets. *)
Theorem proxy_and_agent_pass_through hl bp ua proxy cf rf up w r w' :
  set_driver pf hl bp ua proxy cf rf up w = (r, w') ->
  exists new,
    trace w' = new ++ trace w /\
    forall co, In (Launched co) new ->
      (forall p, In (set_proxy p) co <-> proxy = Some p /\ p <> ""%string) /\
      (forall u0, ua = Some u0 -> u0 <> ""%string ->
         forall u, In (set_user_agent u) co <-> u = u0).
Proof.
  intros Hrun. apply launches_of_run in Hrun as (new & Htr & _ & _ & Hl & _).
  exists new. split; [done|]. intros co Hin.
  destruct (Hl co Hin) as (path & exts & _ & -> & _). split.
  - intros p. rewrite in_app_iff, base_options_proxy.
    split; [intros [H|H]; [done | by apply not_an_extension in H] | by left].
  - intros u0 -> Hne u. rewrite in_app_iff, base_options_given_agent by done.
    split; [intros [H|H]; [done | by apply not_an_extension in H] | by left].
Qed.

(** X17.  With the three flags off nothing is provisioned: the run reads
    no input, changes no file, and adds to the trace at most the launch. *)
Theorem flags_off_no_provisioning hl bp ua proxy w r w' :
  set_driver pf hl bp ua proxy false false false w = (r, w') ->
  fs w' = fs w /\ stdin w' = stdin w /\
  (trace w' = trace w \/ exists co, trace w' = Launched co :: trace w).
Proof.
  unfold set_driver. intros Hrun.
  apply bind_inv in Hrun as [(path & w0 & Hfind & Hrun)|(e & Hfind & ->)];
    apply find_browser_world in Hfind as [-> _]; [|by repeat split; auto].
  apply bind_inv in Hrun as [(co1 & w1 & [= <- <-] & Hrun)|(? & [=] & _)].
  apply bind_inv in Hrun as [(co2 & w2 & [= <- <-] & Hrun)|(? & [=] & _)].
  apply bind_inv in Hrun as [(co3 & w3 & [= <- <-] & Hrun)|(? & [=] & _)].
  apply bind_inv in Hrun as [(co4 & w4 & Hg & Hrun)|(? & Hg & _)];
    rewrite load_gpt_rf_run in Hg; [|done]. injection Hg as <- <-.
  apply bind_inv in Hrun as [(d & w5 & Hl & Hrun)|(e & Hl & ->)];
    rewrite new_GuaPage_run in Hl.
  - injection Hrun as <- <-. injection Hl as _ <-. simpl. eauto.
  - injection Hl as _ <-. simpl. eauto.
Qed.
End Launching.
Lemma unknown_plugin_is_refused_witness :
  let pf := linux_box offline no_archive starts in
  let w := on_disk [] [] in
  let w' := {| fs := fs w; stdin := stdin w;
               trace := Logged ERROR (NoDownloadUrl "adblock")
                        :: Logged WARNING (PluginMissing "adblock") :: trace w |} in
  check_and_download_plugin pf "adblock" w = (Ret false, w') /\
  logfile_log w' =
    logfile_log w ++ [(WARNING, PluginMissing "adblock"); (ERROR, NoDownloadUrl "adblock")].
Proof.
  apply (unknown_plugin_is_refused (linux_box offline no_archive starts)
           "adblock" "/work" (on_disk [] [])).
  - reflexivity.
  - vm_compute. reflexivity.
  - vm_compute. reflexivity.
Defined.

Lemma declined_download_witness :
  let pf := linux_box offline no_archive starts in
  let w := on_disk [] ["maybe"; ""; " No "; "y"]%string in
  let w' := {| fs := fs w; stdin := [Ret "y"%string];
               trace := Logged INFO (UserDeclined "turnstilePatch")
                        :: Prompted "turnstilePatch"
                        :: concat (replicate (length ["maybe"; ""]%string)
                                     [Printed; Prompted "turnstilePatch"])
                        ++ Logged WARNING (PluginMissing "turnstilePatch")
                        :: trace w |} in
  check_and_download_plugin pf "turnstilePatch" w = (Ret false, w') /\
  logfile_log w' =
    logfile_log w ++ [(WARNING, PluginMissing "turnstilePatch");
                      (INFO, UserDeclined "turnstilePatch")].
Proof.
  apply (declined_download (linux_box offline no_archive starts)
           "turnstilePatch" "/work" ["maybe"; ""]%string " No "%string [Ret "y"%string]
           (on_disk [] ["maybe"; ""; " No "; "y"]%string)).
  - reflexivity.
  - reflexivity.
  - vm_compute. reflexivity.
  - vm_compute. by eexists.
  - repeat constructor.
  - reflexivity.
  - reflexivity.
  - reflexivity.
Defined.

Lemma prompt_at_end_of_input_witness :
  let pf := linux_box offline no_archive starts in
  let w := on_disk [] ["maybe"%string] in
  let w' := {| fs := fs w; stdin := [];
               trace := Prompted "turnstilePatch"
                        :: concat (replicate (length ["maybe"%string])
                                     [Printed; Prompted "turnstilePatch"])
                        ++ Logged WARNING (PluginMissing "turnstilePatch") :: trace w |} in
  check_and_download_plugin pf "turnstilePatch" w =
    (Raise (mkExn EOFError "EOF when reading a line"), w') /\
  logfile_log w' = logfile_log w ++ [(WARNING, PluginMissing "turnstilePatch")].
Proof.
  apply (prompt_at_end_of_input (linux_box offline no_archive starts)
           "turnstilePatch" "/work" ["maybe"%string] (on_disk [] ["maybe"%string])).
  - reflexivity.
  - reflexivity.
  - vm_compute. reflexivity.
  - vm_compute. by eexists.
  - reflexivity.
  - repeat constructor.
Defined.


Lemma installed_means_on_disk_witness :
  let pf := linux_box release unpacks starts in
  let w' := (download_plugin pf "turnstilePatch" (on_disk [("/work", Dir)] [])).2 in
  exists cwd,
    getcwd pf = Ret cwd /\
    is_Some (fs w' !! resolve pf (os_path_join pf cwd "turnstilePatch")) /\
    fs w' !! resolve pf ("turnstilePatch" ++ ".zip") = None.
Proof.
  apply (installed_means_on_disk (linux_box release unpacks starts)
           "turnstilePatch" (on_disk [("/work", Dir)] [])).
  vm_compute. reflexivity.
Defined.

Lemma failed_request_touches_nothing_witness :
  let pf := linux_box offline no_archive starts in
  let url := "https://github.com/gua12345/DrissionPage_Base_Code/releases/download/v1/turnstilePatch.zip"%string in
  let e := mkExn RequestException "Connection refused" in
  let w := on_disk [] [] in
  let w' := {| fs := fs w; stdin := stdin w;
               trace := Logged ERROR (failure_log "turnstilePatch" e)
                        :: HttpGet url
                        :: Logged INFO (DownloadStarts "turnstilePatch" url)
                        :: trace w |} in
  download_plugin pf "turnstilePatch" w = (Ret false, w') /\
  logfile_log w' =
    logfile_log w ++ [(INFO, DownloadStarts "turnstilePatch" url);
                      (ERROR, failure_log "turnstilePatch" e)].
Proof.
  apply (failed_request_touches_nothing (linux_box offline no_archive starts)
           "turnstilePatch"
           "https://github.com/gua12345/DrissionPage_Base_Code/releases/download/v1/turnstilePatch.zip"
           (mkExn RequestException "Connection refused") (on_disk [] [])).
  - vm_compute. reflexivity.
  - reflexivity.
  - left. reflexivity.
Defined.

Lemma requests_only_to_configured_urls_witness :
  let pf := linux_box offline no_archive starts in
  let w := on_disk [("/usr/bin/chromium", File "")] ["y"; "y"; "y"]%string in
  let run := set_driver pf false None None None true true true w in
  exists new,
    trace run.2 = new ++ trace w /\
    forall url, In (HttpGet url) new ->
      exists name, In name plugin_names /\ PLUGIN_URLS !! name = Some url.
Proof.
  apply (requests_only_to_configured_urls (linux_box offline no_archive starts)
           false None None None true true true
           (on_disk [("/usr/bin/chromium", File "")] ["y"; "y"; "y"]%string)
           (set_driver (linux_box offline no_archive starts)
              false None None None true true true
              (on_disk [("/usr/bin/chromium", File "")] ["y"; "y"; "y"]%string)).1).
  vm_compute. reflexivity.
Defined.

Lemma given_browser_path_is_used_witness :
  let pf := linux_box offline no_archive starts in
  let w := on_disk [] [] in
  let run := set_driver pf false (Some "/opt/chrome") None None false false false w in
  find_browser pf (Some "/opt/chrome"%string) w = (Ret "/opt/chrome"%string, w) /\
  exists new,
    trace run.2 = new ++ trace w /\
    forall co, In (Launched co) new -> head co = Some (set_paths "/opt/chrome").
Proof.
  apply (given_browser_path_is_used (linux_box offline no_archive starts)
           false "/opt/chrome" None None false false false (on_disk [] [])
           (set_driver (linux_box offline no_archive starts)
              false (Some "/opt/chrome"%string) None None false false false
              (on_disk [] [])).1).
  - discriminate.
  - vm_compute. reflexivity.
Defined.

Lemma first_candidate_on_disk_is_used_witness :
  let pf := linux_box offline no_archive starts in
  let w := on_disk [("/usr/bin/chromium", File ""); ("/snap/bin/chromium", File "")] [] in
  let run := set_driver pf false None None None false false false w in
  exists new,
    trace run.2 = new ++ trace w /\
    forall co, In (Launched co) new ->
      exists path before after,
        head co = Some (set_paths path) /\
        default_paths pf = before ++ path :: after /\
        Forall (fun p => fs w !! resolve pf p = None) before /\
        is_Some (fs w !! resolve pf path).
Proof.
  apply (first_candidate_on_disk_is_used (linux_box offline no_archive starts)
           false None None None false false false
           (on_disk [("/usr/bin/chromium", File ""); ("/snap/bin/chromium", File "")] [])
           (set_driver (linux_box offline no_archive starts)
              false None None None false false false
              (on_disk [("/usr/bin/chromium", File ""); ("/snap/bin/chromium", File "")] [])).1).
  - reflexivity.
  - vm_compute. reflexivity.
Defined.

Lemma launch_options_shape_witness :
  let pf := linux_box release unpacks starts in
  let w := on_disk [("/work", Dir); ("/usr/bin/chromium", File "");
                    ("/work/gpt_rf", Dir)] ["y"; "n"; "n"]%string in
  let run := set_driver pf false None None None true true true w in
  exists new,
    trace run.2 = new ++ trace w /\
    (forall co, In (Launched co) new ->
       exists path exts,
         co = base_options pf false path None None ++ map add_extension exts /\
         sublist exts loadable) /\
    (forall d, run.1 = Ret d -> In (Launched (options d)) new).
Proof.
  apply (launch_options_shape (linux_box release unpacks starts)
           false None None None true true true
           (on_disk [("/work", Dir); ("/usr/bin/chromium", File "");
                     ("/work/gpt_rf", Dir)] ["y"; "n"; "n"]%string)).
  vm_compute. reflexivity.
Defined.

Lemma sandbox_off_iff_privileged_witness :
  let pf := linux_box offline no_archive starts in
  let w := on_disk [("/usr/bin/chromium", File "")] [] in
  let run := set_driver pf false None None None false false false w in
  exists new,
    trace run.2 = new ++ trace w /\
    forall co, In (Launched co) new ->
      (In (set_argument "--no-sandbox") co <-> is_admin pf = true) /\
      (In (set_argument "--disable-gpu") co
       <-> is_admin pf = true /\ is_windows pf = false).
Proof.
  apply (sandbox_off_iff_privileged (linux_box offline no_archive starts)
           false None None None false false false
           (on_disk [("/usr/bin/chromium", File "")] [])
           (set_driver (linux_box offline no_archive starts)
              false None None None false false false
              (on_disk [("/usr/bin/chromium", File "")] [])).1).
  vm_compute. reflexivity.
Defined.

Lemma flags_off_no_provisioning_witness :
  let pf := linux_box offline no_archive starts in
  let w := on_disk [("/usr/bin/chromium", File "")] ["y"%string] in
  let run := set_driver pf false None None None false false false w in
  fs run.2 = fs w /\ stdin run.2 = stdin w /\
  (trace run.2 = trace w \/ exists co, trace run.2 = Launched co :: trace w).
Proof.
  apply (flags_off_no_provisioning (linux_box offline no_archive starts)
           false None None None
           (on_disk [("/usr/bin/chromium", File "")] ["y"%string])
           (set_driver (linux_box offline no_archive starts)
              false None None None false false false
              (on_disk [("/usr/bin/chromium", File "")] ["y"%string])).1).
  vm_compute. reflexivity.
Defined.

Lemma directories_survive_witness :
  let pf := linux_box release unpacks starts in
  let w := on_disk [("/work", Dir); ("/usr/bin/chromium", File "")]
             ["y"; "n"; "n"]%string in
  fs (set_driver pf false None None None true true true w).2 !! "/work"%string
  = Some Dir.
Proof.
  apply (directories_survive (linux_box release unpacks starts)
           false None None None true true true
           (on_disk [("/work", Dir); ("/usr/bin/chromium", File "")]
              ["y"; "n"; "n"]%string)
           (set_driver (linux_box release unpacks starts)
              false None None None true true true
              (on_disk [("/work", Dir); ("/usr/bin/chromium", File "")]
                 ["y"; "n"; "n"]%string)).1).
  - vm_compute. reflexivity.
  - vm_compute. reflexivity.
Defined.

Lemma proxy_and_agent_pass_through_witness :
  let pf := linux_box offline no_archive starts in
  let w := on_disk [("/usr/bin/chromium", File "")] [] in
  let run := set_driver pf true None (Some "curl/8") (Some "socks5://127.0.0.1:9050")
               false false false w in
  exists new,
    trace run.2 = new ++ trace w /\
    forall co, In (Launched co) new ->
      (forall p, In (set_proxy p) co
         <-> Some "socks5://127.0.0.1:9050"%string = Some p /\ p <> ""%string) /\
      (forall u0, Some "curl/8"%string = Some u0 -> u0 <> ""%string ->
         forall u, In (set_user_agent u) co <-> u = u0).
Proof.
  apply (proxy_and_agent_pass_through (linux_box offline no_archive starts)
           true None (Some "curl/8"%string) (Some "socks5://127.0.0.1:9050"%string)
           false false false
           (on_disk [("/usr/bin/chromium", File "")] [])
           (set_driver (linux_box offline no_archive starts)
              true None (Some "curl/8"%string) (Some "socks5://127.0.0.1:9050"%string)
              false false false
              (on_disk [("/usr/bin/chromium", File "")] [])).1).
  vm_compute. reflexivity.
Defined.

End ConfigExtra.
